(** * Archive migration pipeline: a shallow embedding of [main.py] and
      [gcs_uploader.py]

    The two scripts classify the files of a dataset repository, extract tar
    archives into a staging directory (checking archive members against
    path traversal) and hand the result to [gcloud storage cp].

    Layout of the development:
    - [Py]      : the Python string and [os.path] / [pathlib] primitives the
                  scripts call, written out on [string];
    - [Classify]: [classify_files] of main.py;
    - [OS]      : the file system, the event trace and the state-and-
                  exception monad the effectful code runs in;
    - [Uploader]: [process_tar_file] and [main] of gcs_uploader.py;
    - [HubMain] : the extraction and upload functions of main.py;
    - [Pool]    : the worker pool as a step relation;
    - [CopyTool]: the naming rule of the recursive copy;
    - [Fixtures]: the archives and hosts of the examples;
    - [Sizing]  : the size of the extraction pool of main.py;
    - [Observe] : classes of events and of paths used in the statements;
    - the properties, claim by claim (C1 to C10), and the further
      properties of the two scripts (X1 to X23). *)

From Stdlib Require Import String Ascii List Bool Arith ZArith Lia.
From Stdlib Require DecimalString.
Import ListNotations.
Local Open Scope string_scope.
Local Open Scope list_scope.

(* ===================================================================== *)
(** ** Python strings and paths *)
(* ===================================================================== *)

Module Py.

(** [s.split(sep)] for a one-character separator: never the empty list. *)
Fixpoint split (sep : ascii) (s : string) : list string :=
  match s with
  | EmptyString => [EmptyString]
  | String c r =>
      if Ascii.eqb c sep then EmptyString :: split sep r
      else match split sep r with
           | [] => [String c EmptyString]
           | h :: t => String c h :: t
           end
  end.

(** [sep.join(parts)]. *)
Definition join (sep : string) (parts : list string) : string :=
  String.concat sep parts.

(** [s.lstrip(c)] for a one-character set. *)
Fixpoint lstrip (c : ascii) (s : string) : string :=
  match s with
  | String a r => if Ascii.eqb a c then lstrip c r else s
  | EmptyString => EmptyString
  end.

(** [s.endswith(t)] for a one-character [t]. *)
Fixpoint endswith_char (c : ascii) (s : string) : bool :=
  match s with
  | EmptyString => false
  | String a EmptyString => Ascii.eqb a c
  | String _ r => endswith_char c r
  end.

Definition startswith (t s : string) : bool := String.prefix t s.

(** [s.endswith(t)]. *)
Definition endswith (t s : string) : bool :=
  Nat.leb (String.length t) (String.length s)
  && String.eqb t (substring (String.length s - String.length t)
                             (String.length t) s).

(** [c in s] for a character. *)
Fixpoint has_char (c : ascii) (s : string) : bool :=
  match s with
  | EmptyString => false
  | String a r => Ascii.eqb a c || has_char c r
  end.

(** [x in xs] on a collection of strings. *)
Definition str_in (x : string) (xs : list string) : bool :=
  existsb (String.eqb x) xs.

(** [xs[-2:]]. *)
Fixpoint last_two {A} (xs : list A) : list A :=
  match xs with
  | _ :: ((_ :: _ :: _) as r) => last_two r
  | _ => xs
  end.

Definition slash : ascii := "/"%char.
Definition dot : ascii := "."%char.

(** The parts of a [PurePosixPath] below the root: empty components and
    [.] components are dropped when the path is parsed. *)
Definition parts (p : string) : list string :=
  filter (fun c => negb (String.eqb c "") && negb (String.eqb c "."))
         (split slash p).

(** [Path(p).name]: the final component, [""] when there is none. *)
Definition name (p : string) : string := last (parts p) "".

(** [Path(p).suffixes] (pathlib, [PurePath.suffixes]):
    [[
      name = self.name
      if name.endswith('.'): return []
      name = name.lstrip('.')
      return ['.' + suffix for suffix in name.split('.')[1:]]
    ]] *)
Definition suffixes_of_name (n : string) : list string :=
  if endswith_char dot n then []
  else map (fun x => ("." ++ x)%string) (tl (split dot (lstrip dot n))).

Definition suffixes (p : string) : list string := suffixes_of_name (name p).

(** Each element with a leading dot. *)
Definition dotted (l : list string) : list string :=
  map (fun x => ("." ++ x)%string) l.

(** *** [os.path] (posixpath) *)

(** [s.rstrip(c)]. *)
Fixpoint rstrip (c : ascii) (s : string) : string :=
  match s with
  | EmptyString => EmptyString
  | String a r =>
      match rstrip c r with
      | EmptyString => if Ascii.eqb a c then EmptyString else String a EmptyString
      | r' => String a r'
      end
  end.

Definition isabs (p : string) : bool := startswith "/" p.

(** One step of [os.path.join(a, *p)]. *)
Definition join2 (path b : string) : string :=
  if startswith "/" b then b
  else if String.eqb path "" || endswith_char slash path then (path ++ b)%string
  else (path ++ "/" ++ b)%string.

Definition path_join (a : string) (p : list string) : string :=
  fold_left join2 p a.

Definition is_nil {A} (l : list A) : bool :=
  match l with [] => true | _ => false end.

(** The loop body of [normpath] over the components. *)
Definition normpath_step (initial_slashes : nat) (new_comps : list string)
  (comp : string) : list string :=
  if String.eqb comp "" || String.eqb comp "." then new_comps
  else if negb (String.eqb comp "..")
          || (Nat.eqb initial_slashes 0 && is_nil new_comps)
          || (negb (is_nil new_comps) && String.eqb (last new_comps "") "..")
       then new_comps ++ [comp]
       else removelast new_comps.

Fixpoint slashes (n : nat) : string :=
  match n with O => EmptyString | S k => String slash (slashes k) end.

(** [os.path.normpath]. *)
Definition normpath (path : string) : string :=
  if String.eqb path "" then "."
  else
    let initial_slashes :=
      if startswith "/" path
      then if startswith "//" path && negb (startswith "///" path) then 2 else 1
      else 0 in
    let comps := fold_left (normpath_step initial_slashes) (split slash path) [] in
    let path' := (slashes initial_slashes ++ join "/" comps)%string in
    if String.eqb path' "" then "." else path'.

(** [os.path.abspath], with the working directory made explicit. *)
Definition abspath (cwd path : string) : string :=
  normpath (if isabs path then path else join2 cwd path).

(** [os.path.commonprefix([a, b])] on strings: character by character. *)
Fixpoint commonprefix (a b : string) : string :=
  match a, b with
  | String x a', String y b' =>
      if Ascii.eqb x y then String x (commonprefix a' b') else EmptyString
  | _, _ => EmptyString
  end.

(** [os.path.commonprefix] on lists of components. *)
Fixpoint commonprefix_list (a b : list string) : list string :=
  match a, b with
  | x :: a', y :: b' =>
      if String.eqb x y then x :: commonprefix_list a' b' else []
  | _, _ => []
  end.

Definition nonempty (s : string) : bool := negb (String.eqb s "").

(** [os.path.relpath(path, start)]; [None] is the [ValueError] raised on an
    empty [path]. *)
Definition relpath (cwd path start : string) : option string :=
  if String.eqb path "" then None
  else
    let start_list := filter nonempty (split slash (abspath cwd start)) in
    let path_list := filter nonempty (split slash (abspath cwd path)) in
    let i := length (commonprefix_list start_list path_list) in
    let rel_list := repeat ".." (length start_list - i) ++ skipn i path_list in
    match rel_list with
    | [] => Some "."
    | x :: r => Some (path_join x r)
    end.

(** [(p[:i], p[i:])] for [i = p.rfind('/') + 1]. *)
Fixpoint rsplit_slash (p : string) : string * string :=
  match p with
  | EmptyString => (EmptyString, EmptyString)
  | String c r =>
      let (h, t) := rsplit_slash r in
      match h with
      | EmptyString =>
          if Ascii.eqb c slash then (String c EmptyString, t)
          else (EmptyString, String c t)
      | _ => (String c h, t)
      end
  end.

(** [os.path.dirname]. *)
Definition dirname (p : string) : string :=
  let head := fst (rsplit_slash p) in
  if nonempty head && negb (String.eqb head (slashes (String.length head)))
  then rstrip slash head else head.

(** [os.path.basename]. *)
Definition basename (p : string) : string := snd (rsplit_slash p).

(** [s[:n]]. *)
Definition take (n : nat) (s : string) : string := substring 0 n s.

(** [s.strip()]: white space removed at both ends. *)
Definition is_space (c : ascii) : bool :=
  let n := nat_of_ascii c in
  Nat.eqb n 32 || (Nat.leb 9 n && Nat.leb n 13).

Fixpoint lstrip_ws (s : string) : string :=
  match s with
  | String a r => if is_space a then lstrip_ws r else s
  | EmptyString => EmptyString
  end.

Fixpoint rstrip_ws (s : string) : string :=
  match s with
  | EmptyString => EmptyString
  | String a r =>
      match rstrip_ws r with
      | EmptyString => if is_space a then EmptyString else String a EmptyString
      | r' => String a r'
      end
  end.

Definition strip (s : string) : string := rstrip_ws (lstrip_ws s).

(** [os.path.expanduser] for [~] and [~/...] with [HOME] given. *)
Definition expanduser (home path : string) : string :=
  match path with
  | String "~" rest =>
      if String.eqb rest "" || startswith "/" rest
      then let r := (rstrip slash home ++ rest)%string in
           if String.eqb r "" then "/" else r
      else path
  | _ => path
  end.

(** [str(n)] for a natural number. *)
Definition str_of_nat (n : nat) : string :=
  DecimalString.NilZero.string_of_uint (Nat.to_uint n).

(** [str(z)] for an integer. *)
Definition str_of_Z (z : Z) : string :=
  DecimalString.NilZero.string_of_int (Z.to_int z).

(** The line feed of ["\n"]. *)
Definition nl : string := String "010"%char EmptyString.

(** [repr] of a list of strings that need no escaping. *)
Definition repr_list (l : list string) : string :=
  ("[" ++ join ", " (map (fun x => "'" ++ x ++ "'") l) ++ "]")%string.

End Py.

(* ===================================================================== *)
(** ** main.py: [classify_files] *)
(* ===================================================================== *)

Module Classify.
Import Py.

Definition PARQUET_SUFFIXES : list string := [".parquet"].
Definition TAR_SUFFIXES : list string :=
  [".tar"; ".tar.gz"; ".tgz"; ".tar.bz2"; ".tar.xz"].

(** What the loop body decides for one path. *)
Inductive verdict := Skip | Parquet | Tar.

Definition classify_one (file_path : string) : verdict :=
  let sfx := suffixes file_path in
  match sfx with
  | [] => Skip
  | _ =>
      if existsb (fun suffix => str_in suffix PARQUET_SUFFIXES) sfx
      then Parquet
      else
        let merged_suffix :=
          if Nat.leb 2 (length sfx) then join "" (last_two sfx) else last sfx "" in
        if str_in merged_suffix TAR_SUFFIXES || str_in (last sfx "") TAR_SUFFIXES
        then Tar else Skip
  end.

(** The loop of [classify_files]: both lists grow by [append]. *)
Definition classify_step (acc : list string * list string) (file_path : string)
  : list string * list string :=
  match classify_one file_path with
  | Skip => acc
  | Parquet => (fst acc ++ [file_path], snd acc)
  | Tar => (fst acc, snd acc ++ [file_path])
  end.

Definition classify_files (repo_files : list string)
  : list string * list string :=
  fold_left classify_step repo_files ([], []).

(** A name part that is more than leading dots: [lstrip('.')] leaves
    something of it. *)
Definition has_stem (stem : string) : bool :=
  negb (String.eqb (lstrip dot stem) "").

(** Some suffix of the path is a parquet suffix. *)
Definition mentions_parquet (file_path : string) : bool :=
  existsb (fun suffix => str_in suffix PARQUET_SUFFIXES) (suffixes file_path).

Definition is_parquet (v : verdict) : bool :=
  match v with Parquet => true | _ => false end.

Definition is_tar (v : verdict) : bool :=
  match v with Tar => true | _ => false end.

End Classify.

(* ===================================================================== *)
(** ** The operating system seen by the scripts *)
(* ===================================================================== *)

Module OS.
Import Py.

(** *** Archives and the file system *)

(** The member types of the archives considered: regular files and
    directories.  Link members ([SYMTYPE], [LNKTYPE]) are left out, like
    symbolic links on disk. *)
Inductive TarType := REGTYPE | DIRTYPE.

(** A [tarfile.TarInfo]: the scripts read [member.name] only. *)
Record TarInfo := mkTarInfo { member_name : string; member_type : TarType }.

Inductive Node :=
| Dir
| File                                  (* a file that is not a tar archive *)
| TarFile (members : list TarInfo).     (* a tar archive, members in order *)

(** Absolute, normalised path to node.  The disks considered hold
    directories, files and archives, and no symbolic link: on such a disk
    resolving a path ([Path.resolve], [os.path.realpath]) is
    [os.path.abspath]. *)
Definition Fs := list (string * Node).

Fixpoint lookup (p : string) (fs : Fs) : option Node :=
  match fs with
  | [] => None
  | (q, n) :: r => if String.eqb q p then Some n else lookup p r
  end.

Definition fs_exists (p : string) (fs : Fs) : bool :=
  match lookup p fs with Some _ => true | None => false end.

(** [q] is [d] or lies below it. *)
Definition under (d q : string) : bool :=
  String.eqb q d || startswith (d ++ "/")%string q.

Definition remove_tree (d : string) (fs : Fs) : Fs :=
  filter (fun e => negb (under d (fst e))) fs.

Definition remove_path (p : string) (fs : Fs) : Fs :=
  filter (fun e => negb (String.eqb (fst e) p)) fs.

Definition put (p : string) (n : Node) (fs : Fs) : Fs :=
  (p, n) :: remove_path p fs.

(** ["/a/b/c"] gives [["/a"; "/a/b"; "/a/b/c"]]. *)
Fixpoint prefixes_from (acc : string) (comps : list string) : list string :=
  match comps with
  | [] => []
  | c :: r => let p := (acc ++ "/" ++ c)%string in p :: prefixes_from p r
  end.

Definition ancestors_and_self (p : string) : list string :=
  prefixes_from "" (filter nonempty (split slash p)).

(** Create every missing directory of the chain; [None] when a link of the
    chain exists and is not a directory. *)
Fixpoint mkdir_chain (chain : list string) (fs : Fs) : option Fs :=
  match chain with
  | [] => Some fs
  | d :: r =>
      match lookup d fs with
      | None => mkdir_chain r (put d Dir fs)
      | Some Dir => mkdir_chain r fs
      | Some _ => None
      end
  end.

(** *** Exceptions *)

Inductive Exn :=
| ValueError (msg : string)
| RuntimeError (msg : string)
| OSError (msg : string)            (* FileNotFoundError, PermissionError, EnvironmentError *)
| ReadError (msg : string)          (* tarfile.ReadError *)
| CalledProcessError (returncode : Z)
| PyException (msg : string)        (* raise Exception(msg) *)
| SystemExit (code : Z).

(** [isinstance(e, Exception)]: [SystemExit] derives from [BaseException]. *)
Definition is_Exception (e : Exn) : bool :=
  match e with SystemExit _ => false | _ => true end.

Definition is_ValueError (e : Exn) : bool :=
  match e with ValueError _ => true | _ => false end.

Definition is_CalledProcessError (e : Exn) : bool :=
  match e with CalledProcessError _ => true | _ => false end.

(** [str(e)] as it appears in the log messages. *)
Definition exn_str (e : Exn) : string :=
  match e with
  | ValueError m | RuntimeError m | OSError m | ReadError m | PyException m => m
  | CalledProcessError _ => "Command returned non-zero exit status"
  | SystemExit _ => ""
  end.

(** *** Events, world, environment *)

Inductive Level := DEBUG | INFO | WARNING | ERROR.

Inductive Event :=
| EPrint (msg : string)
| ELog (level : Level) (msg : string)
| ERun (argv : list string) (cwd : option string)
| EMakedirs (path : string)
| ETarOpen (path : string)
| EExtractAll (path : string)       (* extractall called with this destination *)
| EWrite (path : string)            (* one archive member written to disk *)
| ERmtree (path : string)
| EUnlink (path : string).

(** Classes of events, and how often a class occurs in a trace. *)
Definition is_write (e : Event) : bool :=
  match e with EWrite _ => true | _ => false end.

Definition is_tar_open (e : Event) : bool :=
  match e with ETarOpen _ => true | _ => false end.

Definition is_extractall (e : Event) : bool :=
  match e with EExtractAll _ => true | _ => false end.

Definition is_run_of (program : string) (e : Event) : bool :=
  match e with
  | ERun (prog :: _) _ => String.eqb prog program
  | _ => false
  end.

Definition is_error_log (e : Event) : bool :=
  match e with ELog ERROR _ => true | _ => false end.

Definition is_makedirs (e : Event) : bool :=
  match e with EMakedirs _ => true | _ => false end.

Definition is_run (e : Event) : bool :=
  match e with ERun _ _ => true | _ => false end.

Definition is_print_of (msg : string) (e : Event) : bool :=
  match e with EPrint m => String.eqb m msg | _ => false end.

Definition count (p : Event -> bool) (evs : list Event) : nat :=
  length (filter p evs).

(** Nothing but members written. *)
Definition writes (evs : list Event) : Prop :=
  Forall (fun e => is_write e = true) evs.

Record World := mkWorld {
  fs : Fs;                 (* local disk *)
  remote : list string;    (* object names in the bucket *)
  trace : list Event;      (* what happened, oldest first *)
  drawn : nat              (* number of uuid4 tokens drawn so far *)
}.

Record CompletedProcess := mkCompleted {
  returncode : Z; stdout : string; stderr : string
}.

(** What running an external command does: it could not be started, or it
    ran, possibly changing the disk and the bucket, and exited. *)
Inductive Spawn :=
| SpawnError (msg : string)
| Exited (result : CompletedProcess) (fs' : Fs) (remote' : list string).

(** Everything the scripts obtain from outside: the external commands, the
    random tokens, the process environment and the faults the operating
    system may answer a directory operation with. *)
Record Env := mkEnv {
  run_process : list string -> option string -> Fs -> list string -> Spawn;
  uuid4_str : nat -> string;
  which : string -> option string;
  glob : string -> Fs -> list string;
  getcwd : string;
  home : string;
  tqdm_installed : bool;
  makedirs_fault : string -> Fs -> option string;
  rmtree_fault : string -> Fs -> option string
}.

(** *** The monad: state and exceptions *)

Inductive Res (A : Type) :=
| Val (a : A)
| Exc (e : Exn).
Arguments Val {A} a.
Arguments Exc {A} e.

Definition M (A : Type) : Type := World -> Res A * World.

Definition ret {A} (a : A) : M A := fun w => (Val a, w).

Definition bind {A B} (c : M A) (k : A -> M B) : M B :=
  fun w => match c w with
           | (Val a, w') => k a w'
           | (Exc e, w') => (Exc e, w')
           end.

Definition raise {A} (e : Exn) : M A := fun w => (Exc e, w).

Notation "x <- c ;; k" := (bind c (fun x => k))
  (at level 61, c at next level, right associativity).
Notation "c ;; k" := (bind c (fun _ => k))
  (at level 61, right associativity).

(** [try: body  except <matches> as e: handler(e)]. *)
Definition try_except {A} (body : M A) (matches : Exn -> bool)
  (handler : Exn -> M A) : M A :=
  fun w => match body w with
           | (Exc e, w') => if matches e then handler e w' else (Exc e, w')
           | r => r
           end.

(** [try: body  finally: cleanup]: an exception of [cleanup] replaces the
    outcome of [body]. *)
Definition try_finally {A} (body : M A) (cleanup : M unit) : M A :=
  fun w => match body w with
           | (r, w') =>
               match cleanup w' with
               | (Val _, w'') => (r, w'')
               | (Exc e, w'') => (Exc e, w'')
               end
           end.

(** A computation that raises nothing but subclasses of [Exception]. *)
Definition only_exceptions {A} (c : M A) : Prop :=
  forall w e w', c w = (Exc e, w') -> is_Exception e = true.

(** The world after some more events. *)
Definition record (evs : list Event) (w : World) : World :=
  mkWorld (fs w) (remote w) (trace w ++ evs) (drawn w).

Definition emit (e : Event) : M unit := fun w => (Val tt, record [e] w).

Definition get_fs : M Fs := fun w => (Val (fs w), w).

Definition set_fs (f : Fs) : M unit :=
  fun w => (Val tt, mkWorld f (remote w) (trace w) (drawn w)).

Definition print (msg : string) : M unit := emit (EPrint msg).
Definition logging (l : Level) (msg : string) : M unit := emit (ELog l msg).

Section WithEnv.
Variable env : Env.

Definition resolve (p : string) : string := abspath (getcwd env) p.

(** [os.path.exists]. *)
Definition os_path_exists (p : string) : M bool :=
  f <- get_fs ;; ret (fs_exists (resolve p) f).

(** [os.makedirs(p, exist_ok=True)]. *)
Definition os_makedirs (p : string) : M unit :=
  f <- get_fs ;;
  emit (EMakedirs (resolve p)) ;;
  match makedirs_fault env (resolve p) f with
  | Some msg => raise (OSError msg)
  | None =>
      match mkdir_chain (ancestors_and_self (resolve p)) f with
      | Some f' => set_fs f'
      | None => raise (OSError "File exists")
      end
  end.

(** [shutil.rmtree(p)]. *)
Definition shutil_rmtree (p : string) : M unit :=
  f <- get_fs ;;
  emit (ERmtree (resolve p)) ;;
  match rmtree_fault env (resolve p) f with
  | Some msg => raise (OSError msg)
  | None =>
      if fs_exists (resolve p) f then set_fs (remove_tree (resolve p) f)
      else raise (OSError "No such file or directory")
  end.

(** [Path.unlink()]. *)
Definition os_unlink (p : string) : M unit :=
  f <- get_fs ;;
  emit (EUnlink (resolve p)) ;;
  if fs_exists (resolve p) f then set_fs (remove_path (resolve p) f)
  else raise (OSError "No such file or directory").

(** [tarfile.open(p)] followed by reading the member list. *)
Definition tarfile_open (p : string) : M (list TarInfo) :=
  f <- get_fs ;;
  emit (ETarOpen (resolve p)) ;;
  match lookup (resolve p) f with
  | Some (TarFile ms) => ret ms
  | Some File => raise (ReadError "file could not be opened successfully")
  | Some Dir => raise (OSError "Is a directory")
  | None => raise (OSError "No such file or directory")
  end.

(** [TarFile.extract] of one member below [path]: the parent directories
    are created, then the member itself, which takes the place of what was
    at its path.  (The source raises [IsADirectoryError] for a regular
    member whose path is an existing directory; that case is not set
    apart.) *)
Definition extract_one (path : string) (m : TarInfo) : M unit :=
  f <- get_fs ;;
  let target := resolve (join2 path (member_name m)) in
  match mkdir_chain (ancestors_and_self (dirname target)) f with
  | None => raise (OSError "Not a directory")
  | Some f' =>
      emit (EWrite target) ;;
      set_fs (put target (match member_type m with
                          | REGTYPE => File
                          | DIRTYPE => Dir
                          end) f')
  end.

(** [TarFile.extractall(path, members)].  [members] is any iterable: each
    element is produced (here: each computation is run) only when the loop
    reaches it, and the member is extracted before the next one is asked
    for.  A list that is already built is a list of [ret]. *)
Fixpoint extract_loop (path : string) (members : list (M TarInfo)) : M unit :=
  match members with
  | [] => ret tt
  | next :: rest =>
      m <- next ;;
      extract_one path m ;;
      extract_loop path rest
  end.

Definition extractall (path : string) (members : list (M TarInfo)) : M unit :=
  emit (EExtractAll path) ;;
  extract_loop path members.

(** [subprocess.run(argv, cwd=cwd)], output captured. *)
Definition subprocess_run (argv : list string) (cwd : option string)
  : M CompletedProcess :=
  emit (ERun argv cwd) ;;
  fun w =>
    match run_process env argv cwd (fs w) (remote w) with
    | SpawnError msg => (Exc (OSError msg), w)
    | Exited r f' rem' => (Val r, mkWorld f' rem' (trace w) (drawn w))
    end.

(** [str(uuid.uuid4())]. *)
Definition uuid4 : M string :=
  fun w => (Val (uuid4_str env (drawn w)),
            mkWorld (fs w) (remote w) (trace w) (S (drawn w))).

End WithEnv.

End OS.

(* ===================================================================== *)
(** ** gcs_uploader.py *)
(* ===================================================================== *)

Module Uploader.
Import Py OS.

Section WithEnv.
Variable env : Env.

(** *** Configuration *)

Definition SOURCE_ROOT : string := expanduser (home env) "~/upgraded-barnacle/".

Definition SEARCH_PATTERN : string :=
  path_join SOURCE_ROOT
    ["Emilia-Dataset"; "Emilia-Dataset"; "Emilia-*"; "*"; "*.tar"].

Definition BUCKET_NAME : string := "vaani-tts-master".
Definition MAX_WORKERS : nat := 4.
Definition TEMP_BASE_DIR : string := join2 (getcwd env) "temp_extraction_work".
Definition DRY_RUN : bool := true.

(** *** [extract_with_system_tar] *)

Definition tar_cmd (tar_path dest_dir : string) : list string :=
  ["tar"; "-xf"; tar_path; "-C"; dest_dir].

(** The two warnings of [extract_with_system_tar]. *)
Definition msg_tar_failed (tar_path : string) (result : CompletedProcess)
  : string :=
  ("System tar failed for " ++ tar_path ++ ": " ++ strip (stderr result)
   ++ ". Falling back to Python tarfile.")%string.

Definition msg_tar_error (e : Exn) : string :=
  ("System tar error: " ++ exn_str e
   ++ ". Falling back to Python tarfile.")%string.

Definition extract_with_system_tar (tar_path dest_dir : string) : M bool :=
  try_except
    (let cmd := tar_cmd tar_path dest_dir in
     result <- subprocess_run env cmd None ;;
     if negb (Z.eqb (returncode result) 0)
     then logging WARNING (msg_tar_failed tar_path result) ;;
          ret false
     else ret true)
    is_Exception
    (fun e =>
       logging WARNING (msg_tar_error e) ;;
       ret false).


(** *** [ensure_gcloud_installed] *)

Definition ensure_gcloud_installed : M unit :=
  match which env "gcloud" with
  | None => raise (OSError
      "gcloud CLI is not found. Please install Google Cloud SDK.")
  | Some _ => ret tt
  end.

(** *** [process_tar_file] *)

(** The nested helper [is_within_directory]. *)
Definition is_within_directory (directory target : string) : bool :=
  let abs_directory := abspath (getcwd env) directory in
  let abs_target := abspath (getcwd env) target in
  let prefix := commonprefix abs_directory abs_target in
  String.eqb prefix abs_directory.

(** The nested generator [safe_members]: one computation per member, run
    when the consumer asks for that member. *)
Definition safe_members (temp_dir : string) (members : list TarInfo)
  : list (M TarInfo) :=
  map (fun member =>
         let member_path := join2 temp_dir (member_name member) in
         if negb (is_within_directory temp_dir member_path)
         then raise (PyException "Attempted Path Traversal in Tar File")
         else ret member)
      members.

(** Lines 95-96: the destination folder in the bucket. *)
Definition gcs_dest_of (rel_path : string) : string :=
  let dest_rel_folder := dirname rel_path in
  ("gs://" ++ BUCKET_NAME ++ "/" ++ dest_rel_folder ++ "/")%string.

(** Lines 91-99: destination and workspace. *)
Definition job_setup (tar_path temp_dir : string) : M string :=
  match relpath (getcwd env) tar_path SOURCE_ROOT with
  | None => raise (ValueError "no path specified")
  | Some rel_path =>
      let gcs_dest := gcs_dest_of rel_path in
      os_makedirs env temp_dir ;;
      ret gcs_dest
  end.

(** Lines 108-123: the body of the inner [try]. *)
Definition fallback_attempt (tar_path temp_dir : string) : M bool :=
  tar <- tarfile_open env tar_path ;;
  extractall env temp_dir (safe_members temp_dir tar) ;;
  ret true.

(** The error logged at line 125. *)
Definition msg_failed_to_extract (unique_id tar_path : string) (e : Exn)
  : string :=
  ("[" ++ unique_id ++ "] Failed to extract " ++ tar_path ++ ": "
   ++ exn_str e)%string.

(** Lines 105-126: the in-process fallback, [false] for the early
    [return False]. *)
Definition python_fallback (unique_id tar_path temp_dir : string) : M bool :=
  try_except
    (fallback_attempt tar_path temp_dir)
    is_Exception
    (fun e =>
       logging ERROR (msg_failed_to_extract unique_id tar_path e) ;;
       ret false).

Definition msg_extracting (unique_id tar_path : string) : string :=
  ("[" ++ unique_id ++ "] Extracting: " ++ tar_path)%string.

(** Lines 101-126: extraction, [false] when the function returns early. *)
Definition job_extract (unique_id tar_path temp_dir : string) : M bool :=
  logging DEBUG (msg_extracting unique_id tar_path) ;;
  extraction_success <- extract_with_system_tar tar_path temp_dir ;;
  if negb extraction_success
  then python_fallback unique_id tar_path temp_dir
  else ret true.

Definition msg_processed (unique_id tar_path : string) : string :=
  ("[" ++ unique_id ++ "] Successfully processed "
   ++ basename tar_path)%string.

Definition msg_uploading (unique_id gcs_dest : string) : string :=
  ("[" ++ unique_id ++ "] Uploading to " ++ gcs_dest)%string.

Definition upload_cmd (gcs_dest : string) : list string :=
  ["gcloud"; "storage"; "cp"; "-r"; "."; gcs_dest].

(** Lines 128-152: upload.  The test of [result.returncode] is commented
    out in the source, so [result] is not looked at. *)
Definition job_publish (unique_id tar_path temp_dir gcs_dest : string)
  : M bool :=
  print (repr_list (upload_cmd gcs_dest)) ;;
  logging DEBUG (msg_uploading unique_id gcs_dest) ;;
  result <- subprocess_run env (upload_cmd gcs_dest) (Some temp_dir) ;;
  logging INFO (msg_processed unique_id tar_path) ;;
  ret true.

(** Lines 101-152. *)
Definition job_transfer (unique_id tar_path temp_dir gcs_dest : string)
  : M bool :=
  extracted <- job_extract unique_id tar_path temp_dir ;;
  if negb extracted then ret false
  else job_publish unique_id tar_path temp_dir gcs_dest.

Definition msg_global_error (tar_path : string) (e : Exn) : string :=
  ("Global error processing " ++ tar_path ++ ": " ++ exn_str e)%string.

(** Lines 154-156: the handler of the outer [try]. *)
Definition job_handler (tar_path : string) (e : Exn) : M bool :=
  logging ERROR (msg_global_error tar_path e) ;;
  ret false.

(** Lines 158-161: the [finally] block. *)
Definition job_cleanup (temp_dir : string) : M unit :=
  present <- os_path_exists env temp_dir ;;
  if present then shutil_rmtree env temp_dir else ret tt.

Definition process_tar_file (tar_path : string) : M bool :=
  u <- uuid4 env ;;
  let unique_id := take 8 u in
  let temp_dir := join2 TEMP_BASE_DIR unique_id in
  try_finally
    (try_except
       (gcs_dest <- job_setup tar_path temp_dir ;;
        job_transfer unique_id tar_path temp_dir gcs_dest)
       is_Exception
       (job_handler tar_path))
    (job_cleanup temp_dir).

(** The identifier and the workspace of the job that starts in world [w]:
    its token is the next one drawn. *)
Definition next_id (w : World) : string := take 8 (uuid4_str env (drawn w)).

Definition workspace (w : World) : string := join2 TEMP_BASE_DIR (next_id w).

(** The world once the token is drawn. *)
Definition drawn_one (w : World) : World :=
  mkWorld (fs w) (remote w) (trace w) (S (drawn w)).


(** *** [main] *)

(** The executor runs every submitted job to completion; a job's exception
    is kept in its future.  Jobs run here one after the other, in
    submission order. *)
Fixpoint run_jobs (files : list string) : M (list (Res bool)) :=
  match files with
  | [] => ret []
  | f :: rest =>
      fun w =>
        match process_tar_file f w with
        | (r, w') =>
            match run_jobs rest w' with
            | (Val rs, w'') => (Val (r :: rs), w'')
            | (Exc e, w'') => (Exc e, w'')
            end
        end
  end.

(** [future.result()]. *)
Definition future_result (fut : Res bool) : M bool :=
  match fut with Val b => ret b | Exc e => raise e end.

(** The loop over [as_completed]. *)
Fixpoint count_results (futures : list (Res bool)) (successful failed : nat)
  : M (nat * nat) :=
  match futures with
  | [] => ret (successful, failed)
  | fut :: rest =>
      ok <- future_result fut ;;
      if ok then count_results rest (S successful) failed
      else count_results rest successful (S failed)
  end.

(** The files [main] goes on with: [files = files[:2]] under [DRY_RUN]. *)
Definition submitted_files (files : list string) : list string :=
  if DRY_RUN then firstn 2 files else files.

Definition migration_complete : string :=
  (nl ++ "--- Migration Complete ---")%string.

Definition no_files_message : string :=
  "No files found. Check your SOURCE_ROOT and directory structure.".

Definition main : M unit :=
  ensure_gcloud_installed ;;
  present <- os_path_exists env TEMP_BASE_DIR ;;
  (if negb present then os_makedirs env TEMP_BASE_DIR else ret tt) ;;
  print ("Scanning for files matching: " ++ SEARCH_PATTERN)%string ;;
  f <- get_fs ;;
  let files := glob env SEARCH_PATTERN f in
  let total_files := length files in
  print ("Found " ++ str_of_nat total_files ++ " tar files.")%string ;;
  if Nat.eqb total_files 0
  then print no_files_message
  else
    (if DRY_RUN
     then print (nl ++ "--- DRY RUN MODE ACTIVATED ---")%string ;;
          print "Only processing the first found archive to verify configuration."
     else ret tt) ;;
    let files' := submitted_files files in
    (if tqdm_installed env then ret tt
     else print "Install 'tqdm' (pip install tqdm) for a progress bar. Continuing without it...") ;;
    print ("Starting processing with " ++ str_of_nat MAX_WORKERS
           ++ " threads...")%string ;;
    print "Logs are being written to migration.log" ;;
    futures <- run_jobs files' ;;
    counts <- count_results futures 0 0 ;;
    present' <- os_path_exists env TEMP_BASE_DIR ;;
    (if present' then shutil_rmtree env TEMP_BASE_DIR else ret tt) ;;
    print migration_complete ;;
    print ("Successful: " ++ str_of_nat (fst counts))%string ;;
    print ("Failed:     " ++ str_of_nat (snd counts))%string ;;
    print "Check migration.log for details on failures.".

End WithEnv.

End Uploader.

(* ===================================================================== *)
(** ** main.py *)
(* ===================================================================== *)

Module HubMain.
Import Py OS Classify.

(** Parsed command line ([argparse.Namespace]). *)
Record Args := mkArgs {
  dataset_id : string;
  output_dir : string;
  keep_archives : bool;
  gcloud : list string      (* [--gcloud ...]; empty when absent *)
}.

(** [sorted({*xs})]: increasing, without duplicates. *)
Fixpoint insert_sorted (x : string) (l : list string) : list string :=
  match l with
  | [] => [x]
  | y :: r =>
      if String.eqb x y then l
      else if String.ltb x y then x :: l
      else y :: insert_sorted x r
  end.

Definition sorted_set (xs : list string) : list string :=
  fold_right insert_sorted [] xs.

Section WithEnv.
Variable env : Env.

(** The Hugging Face client: listing and download are external. *)
Variable list_repo_files : string -> list string.
Variable snapshot_download : string -> list string -> string -> M string.

(** [Path.resolve().parts] below the root.  [Path.resolve] makes the path
    absolute, follows the symbolic links that are on disk and normalises;
    on the disks considered here, which hold no link, that is
    [os.path.abspath]. *)
Definition resolved_parts (p : string) : list string :=
  filter nonempty (split slash (resolve env p)).

(** [a.relative_to(b)] succeeds when the parts of [b] start those of [a]. *)
Fixpoint parts_prefix (b a : list string) : bool :=
  match b, a with
  | [], _ => true
  | x :: b', y :: a' => String.eqb x y && parts_prefix b' a'
  | _ :: _, [] => false
  end.

Definition relative_to (target base : string) : M unit :=
  if parts_prefix (resolved_parts base) (resolved_parts target) then ret tt
  else raise (ValueError
    ("'" ++ resolve env target ++ "' is not in the subpath of '"
     ++ resolve env base ++ "'")%string).

Definition ensure_path_is_within (base_dir target_path : string) : M unit :=
  try_except
    (relative_to target_path base_dir)
    is_ValueError
    (fun exc =>
       raise (RuntimeError
         ("Archive member would extract outside of " ++ base_dir ++ ": "
          ++ target_path)%string)).

(** A member that [ensure_path_is_within] refuses for destination
    [dest]. *)
Definition escapes (dest : string) (m : TarInfo) : bool :=
  negb (parts_prefix (resolved_parts dest)
          (resolved_parts (join2 dest (member_name m)))).

(** A [for] loop run for its effects. *)
Fixpoint for_each {A} (xs : list A) (body : A -> M unit) : M unit :=
  match xs with
  | [] => ret tt
  | x :: r => body x ;; for_each r body
  end.

Definition extract_tar_archive (archive_path : string) (keep_archive : bool)
  (extraction_path : string) : M unit :=
  present <- os_path_exists env archive_path ;;
  if negb present
  then print ("Warning: expected archive not found locally: "
              ++ archive_path)%string
  else
    let destination := extraction_path in
    members <- tarfile_open env archive_path ;;
    for_each members (fun member =>
      ensure_path_is_within destination
        (join2 destination (member_name member))) ;;
    extractall env destination (map ret members) ;;
    if negb keep_archive then os_unlink env archive_path else ret tt.

(** The pool of [extract_tar_archives] (lines 112-116).  The source runs
    up to five extractions at a time, all into the same destination, and
    hands the futures over in the order they complete.  Here the jobs run
    one after the other, in submission order: one of the schedules of the
    pool, in which no two extractions overlap. *)
Fixpoint run_extractions (tar_paths : list string) (keep : bool)
  (extraction_path : string) : M (list (string * Res unit)) :=
  match tar_paths with
  | [] => ret []
  | p :: rest =>
      fun w =>
        match extract_tar_archive p keep extraction_path w with
        | (r, w') =>
            match run_extractions rest keep extraction_path w' with
            | (Val rs, w'') => (Val ((p, r) :: rs), w'')
            | (Exc e, w'') => (Exc e, w'')
            end
        end
  end.

(** Lines 117-124: the loop over [as_completed].  [futures] holds each
    archive with its outcome, in the order the loop receives them; the
    first failure it meets is printed and raised again. *)
Definition report_extractions (futures : list (string * Res unit)) : M unit :=
  for_each futures (fun fut =>
    match snd fut with
    | Val _ => print ("Finished extracting " ++ fst fut)%string
    | Exc exc =>
        if is_Exception exc
        then print ("Extraction failed for " ++ fst fut ++ ": "
                    ++ exn_str exc)%string ;;
             raise exc
        else raise exc
    end).

Definition extract_tar_archives (dataset_dir : string)
  (tar_rel_paths : list string) (keep : bool) (extraction_path : string)
  : M unit :=
  let tar_paths := map (join2 dataset_dir) tar_rel_paths in
  if is_nil tar_paths then ret tt
  else
    futures <- run_extractions tar_paths keep extraction_path ;;
    report_extractions futures.

Definition download_assets (dataset : string) (out_dir : string)
  (patterns : list string) : M string :=
  if is_nil patterns
  then raise (RuntimeError
    "No matching parquet or tar files found in the dataset repository")
  else snapshot_download dataset patterns out_dir.

Definition upload_command (local_dir dest : string) : list string :=
  ["gcloud"; "storage"; "cp"; "-r"; local_dir; dest].

Definition run_gcloud_storage_upload (local_dir : string)
  (gcs_destination : option string) : M unit :=
  match gcs_destination with
  | None => ret tt
  | Some dest =>
      if String.eqb dest "" then ret tt
      else
        let command := upload_command local_dir dest in
        print ("Running: " ++ join " " command)%string ;;
        result <- subprocess_run env command None ;;
        (* check=True *)
        if negb (Z.eqb (returncode result) 0)
        then raise (CalledProcessError (returncode result))
        else ret tt
  end.

Definition main (args : Args) : M unit :=
  let base_output_dir := resolve env (expanduser (home env) (output_dir args)) in
  let dataset_name := last (split slash (dataset_id args)) "" in
  let dataset_dir := join2 base_output_dir dataset_name in
  os_makedirs env dataset_dir ;;
  let repo_files := list_repo_files (dataset_id args) in
  let (parquet_files, tar_files) := classify_files repo_files in
  (if negb (is_nil parquet_files)
   then print ("Detected " ++ str_of_nat (length parquet_files)
               ++ " parquet files")%string
   else ret tt) ;;
  (if negb (is_nil tar_files)
   then print ("Detected " ++ str_of_nat (length tar_files)
               ++ " tar archives")%string
   else ret tt) ;;
  (if is_nil parquet_files && is_nil tar_files
   then print "No parquet or tar files detected; exiting" ;;
        raise (SystemExit 1)
   else ret tt) ;;
  download_root <- download_assets (dataset_id args) dataset_dir
                     (sorted_set (parquet_files ++ tar_files)) ;;
  print ("Downloaded files into " ++ download_root)%string ;;
  let home_folder := expanduser (home env) "~" in
  let extraction_path := (home_folder ++ "/Dataset/" ++ dataset_name)%string in
  os_makedirs env extraction_path ;;
  extract_tar_archives dataset_dir tar_files (keep_archives args)
    extraction_path ;;
  let gcs_dest := match gcloud args with [] => None | d :: _ => Some d end in
  try_except
    (run_gcloud_storage_upload extraction_path gcs_dest)
    is_CalledProcessError
    (fun exc =>
       match exc with
       | CalledProcessError rc =>
           print ("gcloud command failed with exit code "
                  ++ str_of_Z rc)%string ;;
           raise exc
       | _ => raise exc
       end).

End WithEnv.

End HubMain.

(* ===================================================================== *)
(** ** The worker pool of gcs_uploader.py as a transition system *)
(* ===================================================================== *)

Module Pool.
Import Py OS Uploader.

(** A job in flight: it has created its workspace and not yet run its
    [finally] block. *)
Record Running := mkRunning {
  r_tar_path : string;
  r_unique_id : string;
  r_temp_dir : string;
  r_gcs_dest : string
}.

Record State := mkState {
  pending : list string;                  (* submitted, not yet started *)
  running : list Running;                 (* one per busy worker thread *)
  finished : list (string * Res bool);    (* the futures that are done *)
  world : World
}.

Section WithEnv.
Variable env : Env.

(** [max_workers] of [ThreadPoolExecutor]. *)
Variable max_workers : nat.

(** [process_tar_file] up to the creation of the workspace (lines 84-99).
    When that part raises, the handler and the [finally] block run at once
    and the job is over. *)
Definition job_begin (tar_path : string) : World -> (Running + Res bool) * World :=
  fun w =>
    match uuid4 env w with
    | (Val u, w1) =>
        let unique_id := take 8 u in
        let temp_dir := join2 (TEMP_BASE_DIR env) unique_id in
        match job_setup env tar_path temp_dir w1 with
        | (Val gcs_dest, w2) =>
            (inl (mkRunning tar_path unique_id temp_dir gcs_dest), w2)
        | (Exc e, w2) =>
            match try_finally
                    (try_except (raise e) is_Exception
                       (job_handler tar_path))
                    (job_cleanup env temp_dir) w2 with
            | (r, w3) => (inr r, w3)
            end
        end
    | (Exc e, w1) => (inr (Exc e), w1)
    end.

(** The rest of [process_tar_file] (lines 101-161). *)
Definition job_end (j : Running) : M bool :=
  try_finally
    (try_except
       (job_transfer env (r_unique_id j) (r_tar_path j) (r_temp_dir j)
          (r_gcs_dest j))
       is_Exception
       (job_handler (r_tar_path j)))
    (job_cleanup env (r_temp_dir j)).

(** A free worker takes the oldest pending job; a busy worker finishes
    its job.  Workers interleave at the granularity of these two halves. *)
Inductive step : State -> State -> Prop :=
| step_start f q rs fin w j w' :
    length rs < max_workers ->
    job_begin f w = (inl j, w') ->
    step (mkState (f :: q) rs fin w) (mkState q (rs ++ [j]) fin w')
| step_start_failed f q rs fin w r w' :
    length rs < max_workers ->
    job_begin f w = (inr r, w') ->
    step (mkState (f :: q) rs fin w) (mkState q rs (fin ++ [(f, r)]) w')
| step_finish q rs1 j rs2 fin w r w' :
    job_end j w = (r, w') ->
    step (mkState q (rs1 ++ j :: rs2) fin w)
         (mkState q (rs1 ++ rs2) (fin ++ [(r_tar_path j, r)]) w').

Inductive reachable (s0 : State) : State -> Prop :=
| reach_init : reachable s0 s0
| reach_step s s' : reachable s0 s -> step s s' -> reachable s0 s'.



End WithEnv.

End Pool.

(* ===================================================================== *)
(** ** The recursive copy of [gcloud storage cp -r] *)
(* ===================================================================== *)

Module CopyTool.
Import Py OS.

(** The files below directory [d], by their path relative to [d]. *)
Fixpoint files_below (d : string) (f : Fs) : list string :=
  match f with
  | [] => []
  | (q, n) :: r =>
      match n with
      | Dir => files_below d r
      | _ => if startswith (d ++ "/")%string q
             then substring (String.length d + 1) (String.length q) q
                  :: files_below d r
             else files_below d r
      end
  end.

(** The directory a source operand denotes for a process started with
    [cwd] by a parent whose working directory is [wd]. *)
Definition source_dir (wd : string) (cwd : option string) (src : string)
  : string :=
  abspath (match cwd with
           | Some c => abspath wd c
           | None => wd
           end) src.

(** The component the tool puts between the destination prefix and the
    relative path: the name of the source directory, except when the
    operand ends in [.] or [..], which name no directory to recreate. *)
Definition enclosing (src : string) : string :=
  let leaf := basename (rstrip slash src) in
  if String.eqb leaf "." || String.eqb leaf ".." || String.eqb leaf ""
  then "" else (leaf ++ "/")%string.

(** Object names written by [cp -r src dst] for a destination prefix
    ending in [/]. *)
Definition copied_objects (wd : string) (cwd : option string)
  (src dst : string) (f : Fs) : list string :=
  map (fun rel => (dst ++ enclosing src ++ rel)%string)
      (files_below (source_dir wd cwd src) f).

(** The naming rule of the copy tool, as an assumption on the environment:
    a copy that exits with status 0 has written these objects. *)
Definition recursive_copy (env : Env) : Prop :=
  forall src dst cwd f rem res f' rem',
    run_process env ["gcloud"; "storage"; "cp"; "-r"; src; dst] cwd f rem
      = Exited res f' rem' ->
    returncode res = 0%Z ->
    endswith_char slash dst = true ->
    forall o, In o (copied_objects (getcwd env) cwd src dst f) -> In o rem'.

End CopyTool.

(* ===================================================================== *)
(** ** Concrete environments and disks used in the examples *)
(* ===================================================================== *)

Module Fixtures.
Import Py OS.

Definition archive_path : string :=
  "/home/u/upgraded-barnacle/Emilia-Dataset/Emilia-Dataset/Emilia-ZH-000/000/part.tar".

Definition reg (n : string) : TarInfo := mkTarInfo n REGTYPE.

(** A host where [tar] is not installed and [gcloud storage cp -r] exits
    with status [rc], uploading by the naming rule when [rc] is 0. *)
Definition host_commands (rc : Z) (diagnostic : string)
  (argv : list string) (cwd : option string) (f : Fs) (rem : list string)
  : Spawn :=
  match argv with
  | ["gcloud"; "storage"; "cp"; "-r"; src; dst] =>
      if Z.eqb rc 0
      then Exited (mkCompleted 0 "" "") f
             (rem ++ CopyTool.copied_objects "/work" cwd src dst f)
      else Exited (mkCompleted rc "" diagnostic) f rem
  | _ => SpawnError "[Errno 2] No such file or directory: 'tar'"
  end.

Definition host (rc : Z) (diagnostic : string)
  (cleanup_fault : option string) (found : list string) : Env :=
  {| run_process := host_commands rc diagnostic;
     uuid4_str := fun n =>
       match n with
       | 0 => "1b4e28ba-2fa1-41d2-883f-0016d3cca427"
       | 1 => "6fa459ea-ee8a-4ca4-894e-db77e160355e"
       | _ => "886313e1-3b8a-4372-9b90-0c9aee199e5d"
       end;
     which := fun _ => Some "/usr/bin/gcloud";
     glob := fun _ _ => found;
     getcwd := "/work";
     home := "/home/u";
     tqdm_installed := false;
     makedirs_fault := fun _ _ => None;
     rmtree_fault := fun p _ =>
       if String.eqb p "/work/temp_extraction_work" then None
       else cleanup_fault |}.

(** The ordinary host: the copy succeeds, directories can be removed. *)
Definition plain_host : Env := host 0 "" None [archive_path].

(** A host whose copy tool is refused by the bucket. *)
Definition denied_host : Env :=
  host 1 "ERROR: (gcloud.storage.cp) HTTPError 403: access denied" None
    [archive_path].

(** A host on which the extracted tree cannot be removed. *)
Definition stuck_host : Env :=
  host 0 "" (Some "[Errno 13] Permission denied: 'b'") [archive_path].


(** A disk holding one archive with the given members. *)
Definition disk (members : list TarInfo) : Fs :=
  [(archive_path, TarFile members)].

Definition boot (f : Fs) : World := mkWorld f [] [] 0.

(** The extraction directory of main.py for the dataset [Svarah], holding
    two extracted files, and a destination prefix. *)
Definition dataset_dir : string := "/home/u/Dataset/Svarah".

Definition extracted : Fs :=
  [("/home/u/Dataset/Svarah/a.txt", File);
   ("/home/u/Dataset/Svarah/b/c.txt", File);
   ("/home/u/Dataset/Svarah/b", Dir);
   ("/home/u/Dataset/Svarah", Dir)].

Definition bucket_prefix : string := "gs://vaani-tts-master/data/".

(** Members of the archives used below. *)
Definition benign : list TarInfo := [reg "a.txt"; reg "b/c.txt"].
Definition escaping : list TarInfo := [reg "a.txt"; reg "../../etc/passwd"].
Definition sibling : list TarInfo := [reg "../1b4e28bax/evil.txt"].

(** A workspace as the publish step finds it after [benign] has been
    extracted, and the path of the archive below the source root. *)
Definition staged : Fs :=
  [("/work/temp_extraction_work/1b4e28ba/a.txt", File);
   ("/work/temp_extraction_work/1b4e28ba/b/c.txt", File);
   ("/work/temp_extraction_work/1b4e28ba/b", Dir);
   ("/work/temp_extraction_work/1b4e28ba", Dir)].

Definition archive_rel_path : string :=
  "Emilia-Dataset/Emilia-Dataset/Emilia-ZH-000/000/part.tar".


End Fixtures.

(* ===================================================================== *)
(** ** The remaining code of the two scripts, and what is observed of it *)
(* ===================================================================== *)

Module Sizing.

(** main.py, lines 109-110: the size of the extraction pool.
    [[
      cpu_based = max(1, os.cpu_count() or 4)
      max_workers = min(len(tar_paths), min(cpu_based, 5))
    ]]
    [os.cpu_count()] is [None] when the count cannot be determined; [x or 4]
    is 4 for [None] and for 0. *)
Definition or_default (cpu_count : option nat) (default : nat) : nat :=
  match cpu_count with
  | None => default
  | Some 0 => default
  | Some n => n
  end.

Definition cpu_based (cpu_count : option nat) : nat :=
  Nat.max 1 (or_default cpu_count 4).

Definition max_workers (cpu_count : option nat) (tar_paths : list string) : nat :=
  Nat.min (length tar_paths) (Nat.min (cpu_based cpu_count) 5).

End Sizing.

Module Observe.
Import Py OS.

(** More classes of events. *)
Definition is_warning_log (e : Event) : bool :=
  match e with ELog WARNING _ => true | _ => false end.


(** An event that neither runs a command nor creates or removes a
    directory. *)
Definition quiet (e : Event) : bool :=
  match e with
  | ERun _ _ | EMakedirs _ | ERmtree _ => false
  | _ => true
  end.

Definition quiets (evs : list Event) : Prop :=
  Forall (fun e => quiet e = true) evs.

(** A computation that draws at most [n] tokens. *)
Definition draws_at_most (n : nat) {A} (c : M A) : Prop :=
  forall w, drawn (snd (c w)) <= drawn w + n.

(** The futures that hold [True], and those that hold [False]. *)
Definition holds (b : bool) (fut : Res bool) : bool :=
  match fut with Val x => Bool.eqb x b | Exc _ => false end.

(** The first exception among the futures, in the order of the loop. *)
Fixpoint first_exception {A} (futures : list (Res A)) : option Exn :=
  match futures with
  | [] => None
  | Val _ :: r => first_exception r
  | Exc e :: _ => Some e
  end.

(** The archives the loop of [extract_tar_archives] receives before its
    first failure, and that failure. *)
Fixpoint finished_before_failure {A} (futures : list (string * Res A))
  : list string :=
  match futures with
  | (p, Val _) :: r => p :: finished_before_failure r
  | _ => []
  end.

Fixpoint first_failure {A} (futures : list (string * Res A))
  : option (string * Exn) :=
  match futures with
  | [] => None
  | (_, Val _) :: r => first_failure r
  | (p, Exc e) :: _ => Some (p, e)
  end.

(** The components [normpath] collects for an absolute path. *)
Definition components (path : string) : list string :=
  fold_left (normpath_step 1) (split slash path) [].

(** The value of [initial_slashes] in [normpath]. *)
Definition initial_slashes (path : string) : nat :=
  if startswith "/" path
  then if startswith "//" path && negb (startswith "///" path) then 2 else 1
  else 0.

(** A component that is neither empty nor [.]. *)
Definition kept (c : string) : bool :=
  negb (String.eqb c "") && negb (String.eqb c ".").

(** What [abspath] normalises: the path itself when it is absolute, the
    path joined to the working directory otherwise. *)
Definition anchored (cwd path : string) : string :=
  if isabs path then path else join2 cwd path.

(** A path component that [normpath] keeps as it is: not empty, not [.],
    not [..], and without a slash. *)
Definition plain_component (c : string) : bool :=
  negb (String.eqb c "") && negb (String.eqb c ".")
  && negb (String.eqb c "..") && negb (has_char slash c).

(** A member name that is relative and has no [..] component. *)
Definition stays_below (member : string) : bool :=
  negb (startswith "/" member)
  && forallb (fun c => negb (String.eqb c "..")) (split slash member).

End Observe.

Module MoreFixtures.
Import Py OS Fixtures.

(** A host on which [gcloud] is not installed. *)
Definition bare_host : Env :=
  {| run_process := run_process plain_host;
     uuid4_str := uuid4_str plain_host;
     which := fun _ => None;
     glob := glob plain_host;
     getcwd := getcwd plain_host;
     home := home plain_host;
     tqdm_installed := false;
     makedirs_fault := makedirs_fault plain_host;
     rmtree_fault := rmtree_fault plain_host |}.

End MoreFixtures.

(* ===================================================================== *)
(** * Properties *)
(* ===================================================================== *)

Import Py Classify OS Uploader.

(** ** Strings, suffixes and [classify_files] *)

Section StringFacts.

Lemma split_nonnil sep s : split sep s <> [].
Proof.
  destruct s as [|c r]; simpl; [discriminate|].
  destruct (Ascii.eqb c sep); [discriminate|].
  destruct (split sep r); discriminate.
Qed.

(** A string without the separator is its own single field. *)
Lemma split_no_sep sep s : has_char sep s = false -> split sep s = [s].
Proof.
  induction s as [|c r IH]; simpl; intros H; [reflexivity|].
  apply orb_false_iff in H as [Hc Hr].
  rewrite Hc, (IH Hr). reflexivity.
Qed.

Lemma split_app_field sep a e :
  has_char sep e = false ->
  split sep (a ++ String sep e)%string = split sep a ++ [e].
Proof.
  intros He. induction a as [|c r IH]; simpl.
  - rewrite Ascii.eqb_refl, (split_no_sep _ _ He). reflexivity.
  - destruct (Ascii.eqb c sep).
    + rewrite IH. reflexivity.
    + rewrite IH. destruct (split sep r) eqn:E.
      * exfalso. exact (split_nonnil _ _ E).
      * reflexivity.
Qed.

Lemma lstrip_app c s t :
  lstrip c s <> EmptyString -> lstrip c (s ++ t)%string = (lstrip c s ++ t)%string.
Proof.
  induction s as [|a r IH]; simpl; intros H; [congruence|].
  destruct (Ascii.eqb a c); [auto | reflexivity].
Qed.

Lemma endswith_char_cons c x u :
  u <> EmptyString -> endswith_char c (String x u) = endswith_char c u.
Proof. destruct u; [congruence | reflexivity]. Qed.

Lemma endswith_char_app c s a t :
  endswith_char c (s ++ String a t)%string = endswith_char c (String a t).
Proof.
  induction s as [|x r IH]; [reflexivity|].
  change (String x r ++ String a t)%string with (String x (r ++ String a t)).
  rewrite endswith_char_cons; [exact IH|].
  destruct r; discriminate.
Qed.

Lemma tl_app_nonnil {A} (l : list A) x : l <> [] -> tl (l ++ [x]) = tl l ++ [x].
Proof. destruct l; [congruence | reflexivity]. Qed.

End StringFacts.

Section ClassifyFacts.

Lemma has_char_endswith c e : has_char c e = false -> endswith_char c e = false.
Proof.
  induction e as [|a r IH]; simpl; intros H; [reflexivity|].
  apply orb_false_iff in H as [Ha Hr].
  destruct r; [exact Ha | exact (IH Hr)].
Qed.

Lemma has_stem_lstrip stem : has_stem stem = true -> lstrip dot stem <> "".
Proof.
  unfold has_stem. intros H E. rewrite E in H. discriminate.
Qed.

Lemma suffixes_one stem e :
  has_stem stem = true -> has_char dot e = false -> e <> "" ->
  suffixes_of_name (stem ++ String dot e) =
  dotted (tl (split dot (lstrip dot stem))) ++ [String dot e].
Proof.
  intros Hs He Hne. unfold suffixes_of_name.
  rewrite endswith_char_app, endswith_char_cons by assumption.
  rewrite (has_char_endswith _ _ He).
  rewrite lstrip_app by (apply has_stem_lstrip; assumption).
  rewrite split_app_field by assumption.
  rewrite tl_app_nonnil by apply split_nonnil.
  unfold dotted. rewrite map_app. reflexivity.
Qed.

Lemma append_assoc (a b c : string) : ((a ++ b) ++ c = a ++ (b ++ c))%string.
Proof. induction a; simpl; congruence. Qed.

Lemma has_stem_app stem t : has_stem stem = true -> has_stem (stem ++ t) = true.
Proof.
  intros H. unfold has_stem.
  rewrite lstrip_app by (apply has_stem_lstrip; assumption).
  apply has_stem_lstrip in H.
  destruct (lstrip dot stem); [congruence | reflexivity].
Qed.

Lemma suffixes_two stem e1 e2 :
  has_stem stem = true ->
  has_char dot e1 = false -> has_char dot e2 = false -> e2 <> "" ->
  suffixes_of_name (stem ++ String dot (e1 ++ String dot e2)) =
  dotted (tl (split dot (lstrip dot stem))) ++ [String dot e1; String dot e2].
Proof.
  intros Hs H1 H2 Hne.
  change (String dot (e1 ++ String dot e2))
    with (String dot e1 ++ String dot e2)%string.
  rewrite <- append_assoc.
  rewrite suffixes_one by (auto using has_stem_app).
  rewrite lstrip_app by (apply has_stem_lstrip; assumption).
  rewrite split_app_field by assumption.
  rewrite tl_app_nonnil by apply split_nonnil.
  unfold dotted. rewrite map_app, <- app_assoc. reflexivity.
Qed.

End ClassifyFacts.

Section ClassifyOne.

Lemma last_two_app {A} (pre : list A) x y : last_two (pre ++ [x; y]) = [x; y].
Proof.
  induction pre as [|a r IH]; [reflexivity|].
  destruct r as [|b r']; [reflexivity|].
  change ((a :: b :: r') ++ [x; y]) with (a :: ((b :: r') ++ [x; y])).
  destruct ((b :: r') ++ [x; y]) as [|u [|v t]] eqn:E.
  - discriminate.
  - destruct r'; discriminate.
  - cbn [last_two]. exact IH.
Qed.

Lemma cons_app_nonnil {A} (pre : list A) x :
  exists a r, pre ++ [x] = a :: r.
Proof. destruct pre; simpl; eauto. Qed.

Lemma classify_one_tar_last p pre x :
  suffixes p = pre ++ [x] -> mentions_parquet p = false ->
  str_in x TAR_SUFFIXES = true -> classify_one p = Tar.
Proof.
  unfold classify_one, mentions_parquet. intros E Hnp Hx.
  rewrite E in *. cbv zeta.
  destruct (cons_app_nonnil pre x) as (a & r & E'). rewrite E', <- E'.
  rewrite Hnp, last_last, Hx, orb_true_r. reflexivity.
Qed.

Lemma classify_one_tar_merged p pre x y :
  suffixes p = pre ++ [x; y] -> mentions_parquet p = false ->
  str_in (x ++ y)%string TAR_SUFFIXES = true -> classify_one p = Tar.
Proof.
  unfold classify_one, mentions_parquet. intros E Hnp Hx.
  rewrite E in *. cbv zeta.
  destruct (pre ++ [x; y]) as [|a r] eqn:E'; [destruct pre; discriminate|].
  cbv beta iota. rewrite <- E' in *. rewrite Hnp.
  replace (Nat.leb 2 (length (pre ++ [x; y]))) with true
    by (symmetry; apply Nat.leb_le; rewrite length_app; simpl; lia).
  rewrite last_two_app.
  change (join "" [x; y]) with (x ++ ("" ++ y))%string.
  change ("" ++ y)%string with y. rewrite Hx. reflexivity.
Qed.

Lemma classify_one_parquet p :
  mentions_parquet p = true -> classify_one p = Parquet.
Proof.
  unfold classify_one, mentions_parquet. intros H. cbv zeta.
  destruct (suffixes p) as [|a r]; [discriminate|].
  cbv beta iota. rewrite H. reflexivity.
Qed.

Lemma classify_one_tar_no_parquet p :
  classify_one p = Tar -> mentions_parquet p = false.
Proof.
  unfold classify_one, mentions_parquet. cbv zeta.
  destruct (suffixes p) as [|a r]; [discriminate|].
  cbv beta iota.
  destruct (existsb _ (a :: r)); [discriminate | reflexivity].
Qed.

(** The loop computes two filters of the listing. *)
Lemma classify_fold files : forall acc,
  fold_left classify_step files acc =
  (fst acc ++ filter (fun p => is_parquet (classify_one p)) files,
   snd acc ++ filter (fun p => is_tar (classify_one p)) files).
Proof.
  induction files as [|p r IH]; intros [a b]; simpl.
  - now rewrite !app_nil_r.
  - rewrite IH. unfold classify_step.
    destruct (classify_one p); simpl; rewrite <- ?app_assoc; reflexivity.
Qed.

Lemma classify_files_filter files :
  classify_files files =
  (filter (fun p => is_parquet (classify_one p)) files,
   filter (fun p => is_tar (classify_one p)) files).
Proof. unfold classify_files. now rewrite classify_fold. Qed.

Lemma in_tar_files files p :
  In p (snd (classify_files files)) <-> In p files /\ classify_one p = Tar.
Proof.
  rewrite classify_files_filter. simpl. rewrite filter_In.
  destruct (classify_one p); simpl; intuition congruence.
Qed.

Lemma in_parquet_files files p :
  In p (fst (classify_files files)) <-> In p files /\ classify_one p = Parquet.
Proof.
  rewrite classify_files_filter. simpl. rewrite filter_In.
  destruct (classify_one p); simpl; intuition congruence.
Qed.

End ClassifyOne.

(** C8, as amended: [classify_files] never puts a listed path into both
    lists.  A path goes to the archives when its final component is a stem
    (more than leading dots) followed by [.tar], [.tar.gz], [.tgz],
    [.tar.bz2] or [.tar.xz] - the two-part suffixes are matched through the
    merged last two suffixes, the others through the last suffix - and none
    of its suffixes is [.parquet].  A path goes to the parquet files when
    its final component is such a stem followed by [.parquet], and more
    generally as soon as one of its suffixes is [.parquet], wherever it
    stands. *)
Theorem classify_files_by_suffix (repo_files : list string) (p : string) :
  In p repo_files ->
  ~ (In p (fst (classify_files repo_files))
     /\ In p (snd (classify_files repo_files)))
  /\ (forall stem ext,
        name p = (stem ++ ext)%string -> In ext TAR_SUFFIXES ->
        has_stem stem = true -> mentions_parquet p = false ->
        In p (snd (classify_files repo_files)))
  /\ (forall stem,
        name p = (stem ++ ".parquet")%string -> has_stem stem = true ->
        In p (fst (classify_files repo_files)))
  /\ (mentions_parquet p = true ->
        In p (fst (classify_files repo_files))).
Proof.
  intros Hin. repeat split.
  - intros [Hp Ht]. apply in_parquet_files in Hp. apply in_tar_files in Ht.
    destruct Hp as [_ Hp], Ht as [_ Ht]. congruence.
  - intros stem ext Hname Hext Hstem Hnp.
    apply in_tar_files. split; [assumption|].
    unfold TAR_SUFFIXES in Hext. simpl in Hext.
    destruct Hext as [<-|[<-|[<-|[<-|[<-|[]]]]]].
    + eapply classify_one_tar_last;
        [ unfold suffixes; rewrite Hname; now apply (suffixes_one stem "tar")
        | assumption | reflexivity ].
    + eapply classify_one_tar_merged;
        [ unfold suffixes; rewrite Hname;
          now apply (suffixes_two stem "tar" "gz")
        | assumption | reflexivity ].
    + eapply classify_one_tar_last;
        [ unfold suffixes; rewrite Hname; now apply (suffixes_one stem "tgz")
        | assumption | reflexivity ].
    + eapply classify_one_tar_merged;
        [ unfold suffixes; rewrite Hname;
          now apply (suffixes_two stem "tar" "bz2")
        | assumption | reflexivity ].
    + eapply classify_one_tar_merged;
        [ unfold suffixes; rewrite Hname;
          now apply (suffixes_two stem "tar" "xz")
        | assumption | reflexivity ].
  - intros stem Hname Hstem.
    apply in_parquet_files. split; [assumption|].
    apply classify_one_parquet. unfold mentions_parquet, suffixes.
    rewrite Hname, suffixes_one by easy.
    rewrite existsb_app. simpl. now rewrite orb_true_r.
  - intros H. apply in_parquet_files. split; [assumption|].
    now apply classify_one_parquet.
Qed.

(** ** Which exceptions the job can raise *)

Section MonadFacts.

Lemma only_ret {A} (a : A) : only_exceptions (ret a).
Proof. intros w e w' H. discriminate. Qed.

Lemma only_raise {A} e : is_Exception e = true -> only_exceptions (@raise A e).
Proof. intros He w e' w' H. inversion H; subst. exact He. Qed.

Lemma only_bind {A B} (c : M A) (k : A -> M B) :
  only_exceptions c -> (forall a, only_exceptions (k a)) ->
  only_exceptions (bind c k).
Proof.
  intros Hc Hk w e w'. unfold bind.
  destruct (c w) as [[a|e0] w1] eqn:E.
  - apply Hk.
  - intros H. inversion H; subst. eapply Hc; eauto.
Qed.

Lemma only_emit ev : only_exceptions (emit ev).
Proof. intros w e w' H. discriminate. Qed.

Lemma only_get_fs : only_exceptions get_fs.
Proof. intros w e w' H. discriminate. Qed.

Lemma only_set_fs f : only_exceptions (set_fs f).
Proof. intros w e w' H. discriminate. Qed.

Lemma only_try_except {A} (body : M A) matches handler :
  only_exceptions body -> (forall e, only_exceptions (handler e)) ->
  only_exceptions (try_except body matches handler).
Proof.
  intros Hb Hh w e w'. unfold try_except.
  destruct (body w) as [[a|e0] w1] eqn:E; [discriminate|].
  destruct (matches e0).
  - apply Hh.
  - intros H. inversion H; subst. eapply Hb; eauto.
Qed.

Lemma only_if {A} (b : bool) (c1 c2 : M A) :
  only_exceptions c1 -> only_exceptions c2 ->
  only_exceptions (if b then c1 else c2).
Proof. destruct b; auto. Qed.

(** A handler for [Exception] that returns makes the whole [try] return. *)
Lemma try_except_returns {A} (body : M A) handler w :
  only_exceptions body ->
  (forall e w1, exists a w2, handler e w1 = (Val a, w2)) ->
  exists a w', try_except body is_Exception handler w = (Val a, w').
Proof.
  intros Hb Hh. unfold try_except.
  destruct (body w) as [[a|e] w1] eqn:E; [eauto|].
  rewrite (Hb _ _ _ E). apply Hh.
Qed.

End MonadFacts.

(** Goes through a computation built from the primitives above. *)
Ltac only_auto :=
  repeat first
    [ apply only_bind; [|intros ?]
    | apply only_try_except; [|intros ?]
    | apply only_ret | apply only_emit | apply only_get_fs | apply only_set_fs
    | apply only_raise; reflexivity
    | apply only_if
    | match goal with
      | |- only_exceptions (match ?x with _ => _ end) => destruct x
      end ].

Section JobFacts.
Variable env : Env.

Lemma only_subprocess_run argv cwd : only_exceptions (subprocess_run env argv cwd).
Proof.
  unfold subprocess_run. apply only_bind; [apply only_emit|]. intros _ w e w'.
  destruct (run_process env argv cwd (fs w) (remote w)); intros H;
    inversion H; reflexivity.
Qed.

Lemma only_os_makedirs p : only_exceptions (os_makedirs env p).
Proof. unfold os_makedirs. only_auto. Qed.

Lemma only_tarfile_open p : only_exceptions (tarfile_open env p).
Proof. unfold tarfile_open. only_auto. Qed.

Lemma only_extract_one d m : only_exceptions (extract_one env d m).
Proof. unfold extract_one. only_auto. Qed.

Lemma only_extract_loop d ms :
  Forall only_exceptions ms -> only_exceptions (extract_loop env d ms).
Proof.
  induction 1 as [|c r Hc Hr IH]; cbn [extract_loop]; [apply only_ret|].
  apply only_bind; [assumption|]. intros m.
  apply only_bind; [apply only_extract_one | intros _; exact IH].
Qed.

Lemma only_safe_members d ms : Forall only_exceptions (safe_members env d ms).
Proof.
  unfold safe_members. apply Forall_map, Forall_forall. intros m _.
  only_auto.
Qed.

Lemma only_extract_with_system_tar p d :
  only_exceptions (extract_with_system_tar env p d).
Proof.
  unfold extract_with_system_tar, logging. cbv zeta.
  apply only_try_except; [|intros ?; only_auto].
  apply only_bind; [apply only_subprocess_run|]. intros r. only_auto.
Qed.

Lemma only_python_fallback u p d : only_exceptions (python_fallback env u p d).
Proof.
  unfold python_fallback, logging, extractall.
  apply only_try_except; [|intros ?; only_auto].
  apply only_bind; [apply only_tarfile_open|]. intros ms.
  apply only_bind; [|intros; apply only_ret].
  apply only_bind; [apply only_emit|]. intros _.
  apply only_extract_loop, only_safe_members.
Qed.

Lemma only_job_publish u p d g : only_exceptions (job_publish env u p d g).
Proof.
  unfold job_publish, print, logging.
  apply only_bind; [apply only_emit|]. intros _.
  apply only_bind; [apply only_emit|]. intros _.
  apply only_bind; [apply only_subprocess_run|]. intros _. only_auto.
Qed.

Lemma only_job_transfer u p d g : only_exceptions (job_transfer env u p d g).
Proof.
  unfold job_transfer, job_extract, logging.
  apply only_bind.
  - apply only_bind; [apply only_emit|]. intros _.
    apply only_bind; [apply only_extract_with_system_tar|]. intros b.
    apply only_if; [apply only_python_fallback | apply only_ret].
  - intros b. apply only_if; [apply only_ret | apply only_job_publish].
Qed.

Lemma only_job_setup p d : only_exceptions (job_setup env p d).
Proof.
  unfold job_setup. destruct (relpath _ _ _); [|apply only_raise; reflexivity].
  apply only_bind; [apply only_os_makedirs | intros; apply only_ret].
Qed.

Lemma job_handler_returns p e w :
  exists b w', job_handler p e w = (Val b, w').
Proof. unfold job_handler, logging, emit, bind, ret. eauto. Qed.

(** The guarded part of [process_tar_file] always produces a value. *)
Lemma guarded_job_returns p u d w :
  exists b w',
    try_except
      (gcs_dest <- job_setup env p d ;; job_transfer env u p d gcs_dest)
      is_Exception (job_handler p) w = (Val b, w').
Proof.
  apply try_except_returns.
  - apply only_bind; [apply only_job_setup | intros; apply only_job_transfer].
  - intros. apply job_handler_returns.
Qed.

End JobFacts.

(** ** The blocks of [process_tar_file], outcome by outcome *)

Section FsFacts.

Lemma under_refl d : under d d = true.
Proof. unfold under. now rewrite String.eqb_refl. Qed.

Lemma lookup_remove_tree d f : lookup d (remove_tree d f) = None.
Proof.
  induction f as [|[q n] r IH]; [reflexivity|].
  unfold remove_tree in *. cbn [filter fst].
  destruct (under d q) eqn:U; cbn [negb]; [exact IH|].
  cbn [lookup]. destruct (String.eqb q d) eqn:E; [|exact IH].
  unfold under in U. rewrite E in U. discriminate.
Qed.

Lemma fs_exists_remove_tree d f : fs_exists d (remove_tree d f) = false.
Proof. unfold fs_exists. now rewrite lookup_remove_tree. Qed.

End FsFacts.

Section CleanupFacts.
Variable env : Env.

(** What the [finally] block does, case by case. *)
Lemma job_cleanup_run d w :
  job_cleanup env d w =
  if fs_exists (resolve env d) (fs w)
  then match rmtree_fault env (resolve env d) (fs w) with
       | Some msg =>
           (Exc (OSError msg),
            mkWorld (fs w) (remote w) (trace w ++ [ERmtree (resolve env d)])
              (drawn w))
       | None =>
           (Val tt,
            mkWorld (remove_tree (resolve env d) (fs w)) (remote w)
              (trace w ++ [ERmtree (resolve env d)]) (drawn w))
       end
  else (Val tt, w).
Proof.
  cbv [job_cleanup bind os_path_exists get_fs ret shutil_rmtree emit raise
       set_fs].
  cbn [fs remote trace drawn].
  destruct (fs_exists (resolve env d) (fs w)) eqn:Hex; [|reflexivity].
  destruct (rmtree_fault env (resolve env d) (fs w)); [reflexivity|].
  rewrite Hex. reflexivity.
Qed.


(** The two ways the [finally] block ends: the workspace is gone, or
    [shutil.rmtree] has raised and the workspace is still there. *)
Lemma job_cleanup_cases d w r w' :
  job_cleanup env d w = (r, w') ->
  (r = Val tt /\ fs_exists (resolve env d) (fs w') = false)
  \/ (exists msg,
        r = Exc (OSError msg)
        /\ rmtree_fault env (resolve env d) (fs w') = Some msg
        /\ fs_exists (resolve env d) (fs w') = true
        /\ fs w' = fs w).
Proof.
  rewrite job_cleanup_run.
  destruct (fs_exists (resolve env d) (fs w)) eqn:Hex.
  - destruct (rmtree_fault env (resolve env d) (fs w)) as [msg|] eqn:F;
      intros H; inversion H; subst; cbn [fs].
    + right. exists msg. repeat split; assumption.
    + left. split; [reflexivity|apply fs_exists_remove_tree].
  - intros H. inversion H; subst. left. now split.
Qed.

(** The outcome of a block guarded by that [finally]: the outcome of the
    block with the workspace gone, or the error of the removal with the
    workspace still on disk. *)
Lemma try_finally_cases {A} (body : M A) d w r w' :
  try_finally body (job_cleanup env d) w = (r, w') ->
  (r = fst (body w) /\ fs_exists (resolve env d) (fs w') = false)
  \/ (exists msg,
        r = Exc (OSError msg)
        /\ rmtree_fault env (resolve env d) (fs w') = Some msg
        /\ fs_exists (resolve env d) (fs w') = true).
Proof.
  unfold try_finally. destruct (body w) as [rg wg].
  destruct (job_cleanup env d wg) as [rc wc] eqn:C.
  apply job_cleanup_cases in C as [[-> Hgone]|(msg & -> & F & Hex & _)];
    intros H; inversion H; subst.
  - left. now split.
  - right. exists msg. now repeat split.
Qed.


End CleanupFacts.

(** Worlds built by several steps, brought to one list of events. *)
Ltac tidy :=
  unfold record;
  cbn [fs remote trace drawn is_Exception negb];
  rewrite <- ?app_assoc; cbn [app].

Section RunFacts.
Variable env : Env.

Lemma record_record a b w : record b (record a w) = record (a ++ b) w.
Proof. unfold record. cbn [fs remote trace drawn]. now rewrite app_assoc. Qed.

Lemma record_nil w : record [] w = w.
Proof. destruct w. unfold record. cbn. now rewrite app_nil_r. Qed.

(** [extract_with_system_tar], outcome by outcome of the command. *)
Lemma extract_with_system_tar_run p d w :
  extract_with_system_tar env p d w =
  match run_process env (tar_cmd p d) None (fs w) (remote w) with
  | SpawnError msg =>
      (Val false,
       record [ERun (tar_cmd p d) None; ELog WARNING (msg_tar_error (OSError msg))] w)
  | Exited res f' rem' =>
      if Z.eqb (returncode res) 0
      then (Val true,
            mkWorld f' rem' (trace w ++ [ERun (tar_cmd p d) None]) (drawn w))
      else (Val false,
            mkWorld f' rem'
              (trace w ++ [ERun (tar_cmd p d) None;
                           ELog WARNING (msg_tar_failed p res)]) (drawn w))
  end.
Proof.
  cbv [extract_with_system_tar try_except bind subprocess_run emit logging
       ret record].
  cbn [fs remote trace drawn].
  destruct (run_process env (tar_cmd p d) None (fs w) (remote w)) as [msg|res f' rem'].
  - tidy. reflexivity.
  - destruct (Z.eqb (returncode res) 0); tidy; reflexivity.
Qed.

(** Extraction member by member only writes: it adds [EWrite] events and
    leaves the bucket and the token counter alone. *)

Lemma extract_one_shape d m w r w' :
  extract_one env d m w = (r, w') ->
  exists evs, trace w' = trace w ++ evs /\ writes evs
              /\ remote w' = remote w /\ drawn w' = drawn w.
Proof.
  cbv [extract_one bind get_fs emit set_fs raise record].
  cbn [fs remote trace drawn].
  destruct (mkdir_chain _ (fs w)); intros H; inversion H; subst;
    cbn [fs remote trace drawn].
  - eexists. repeat split. repeat constructor.
  - exists []. rewrite app_nil_r. repeat split. constructor.
Qed.


Lemma safe_member_shape d m w r w' :
  (if negb (is_within_directory env d (join2 d (member_name m)))
   then raise (PyException "Attempted Path Traversal in Tar File")
   else ret m) w = (r, w') -> w' = w.
Proof.
  destruct (negb _); cbv [raise ret]; intros H; now inversion H.
Qed.

Lemma extract_loop_shape d ms : forall w r w',
  extract_loop env d (safe_members env d ms) w = (r, w') ->
  exists evs, trace w' = trace w ++ evs /\ writes evs
              /\ remote w' = remote w /\ drawn w' = drawn w.
Proof.
  induction ms as [|m rest IH]; intros w r w'; cbn [safe_members map extract_loop].
  - cbv [ret]. intros H; inversion H; subst. exists [].
    rewrite app_nil_r. repeat split. constructor.
  - unfold bind at 1.
    match goal with |- context[match ?c w with _ => _ end] =>
      destruct (c w) as [[m'|e] w1] eqn:E1 end.
    + apply safe_member_shape in E1. subst w1.
      unfold bind at 1.
      destruct (extract_one env d m' w) as [[[]|e] w2] eqn:E2.
      * intros H. apply IH in H as (evs2 & T2 & F2 & R2 & D2).
        apply extract_one_shape in E2 as (evs1 & T1 & F1 & R1 & D1).
        exists (evs1 ++ evs2). rewrite T2, T1, app_assoc.
        repeat split; [now apply Forall_app | congruence | congruence].
      * intros H. inversion H; subst.
        apply extract_one_shape in E2 as (evs1 & T1 & F1 & R1 & D1). eauto.
    + intros H. inversion H; subst. apply safe_member_shape in E1. subst.
      exists []. rewrite app_nil_r. repeat split. constructor.
Qed.


(** The in-process attempt opens the archive once and, when it could be
    opened, calls [extractall] once, on the workspace. *)
Lemma fallback_attempt_shape p d w r w' :
  fallback_attempt env p d w = (r, w') ->
  exists tail,
    trace w' = trace w ++ ETarOpen (resolve env p) :: tail
    /\ (tail = [] \/ exists ws, tail = EExtractAll d :: ws /\ writes ws)
    /\ remote w' = remote w /\ drawn w' = drawn w
    /\ (forall b, r = Val b -> b = true).
Proof.
  unfold fallback_attempt, tarfile_open.
  cbv [bind get_fs emit record raise ret]. cbn [fs remote trace drawn].
  destruct (lookup (resolve env p) (fs w)) as [[| |ms]|];
    try (intros H; inversion H; subst; cbn [fs remote trace drawn];
         exists []; repeat split; auto; intros; discriminate).
  unfold extractall. cbv [bind emit record]. cbn [fs remote trace drawn].
  match goal with |- context[extract_loop env d ?l ?w0] =>
    destruct (extract_loop env d l w0) as [[[]|e] w1] eqn:E end;
    apply extract_loop_shape in E as (ws & T & F & R & D);
    cbn [fs remote trace drawn] in *;
    intros H; inversion H; subst;
    (exists (EExtractAll d :: ws); rewrite T, <- !app_assoc; cbn [app];
     split; [reflexivity|]; split; [right; exists ws; now split|];
     repeat split; try congruence; intros b0 Hb; now inversion Hb).
Qed.



Lemma python_fallback_run u p d w :
  python_fallback env u p d w =
  match fallback_attempt env p d w with
  | (Val b, w') => (Val b, w')
  | (Exc e, w') =>
      if is_Exception e
      then (Val false, record [ELog ERROR (msg_failed_to_extract u p e)] w')
      else (Exc e, w')
  end.
Proof.
  unfold python_fallback, try_except.
  destruct (fallback_attempt env p d w) as [[b|e] w']; [reflexivity|].
  destruct (is_Exception e); reflexivity.
Qed.

Lemma fallback_attempt_only p d : only_exceptions (fallback_attempt env p d).
Proof.
  intros w e w'. unfold fallback_attempt, tarfile_open, extractall.
  cbv [bind get_fs emit record raise ret]. cbn [fs remote trace drawn].
  destruct (lookup (resolve env p) (fs w)) as [[| |ms]|];
    try (intros H; inversion H; reflexivity).
  match goal with |- context[extract_loop env d ?l ?w0] =>
    destruct (extract_loop env d l w0) as [[[]|e1] w1] eqn:E end;
    intros H; inversion H; subst.
  revert E. apply (only_extract_loop env), only_safe_members.
Qed.


Lemma job_publish_run u p d g w :
  job_publish env u p d g w =
  let before := [EPrint (repr_list (upload_cmd g));
                 ELog DEBUG (msg_uploading u g);
                 ERun (upload_cmd g) (Some d)] in
  match run_process env (upload_cmd g) (Some d) (fs w) (remote w) with
  | SpawnError msg => (Exc (OSError msg), record before w)
  | Exited res f' rem' =>
      (Val true,
       mkWorld f' rem'
         (trace w ++ before ++ [ELog INFO (msg_processed u p)]) (drawn w))
  end.
Proof.
  cbv [job_publish bind print logging emit subprocess_run ret record].
  cbn [fs remote trace drawn].
  destruct (run_process env (upload_cmd g) (Some d) (fs w) (remote w));
    tidy; reflexivity.
Qed.

(** [run_gcloud_storage_upload] of main.py with a destination, outcome by
    outcome of the command. *)
Lemma run_gcloud_storage_upload_run local_dir dest w :
  dest <> "" ->
  HubMain.run_gcloud_storage_upload env local_dir (Some dest) w =
  let command := HubMain.upload_command local_dir dest in
  let before := [EPrint ("Running: " ++ join " " command)%string;
                 ERun command None] in
  match run_process env command None (fs w) (remote w) with
  | SpawnError msg => (Exc (OSError msg), record before w)
  | Exited res f' rem' =>
      if Z.eqb (returncode res) 0
      then (Val tt, mkWorld f' rem' (trace w ++ before) (drawn w))
      else (Exc (CalledProcessError (returncode res)),
            mkWorld f' rem' (trace w ++ before) (drawn w))
  end.
Proof.
  intros Hd. unfold HubMain.run_gcloud_storage_upload.
  apply String.eqb_neq in Hd. rewrite Hd.
  cbv [bind print emit subprocess_run ret raise record].
  cbn [fs remote trace drawn].
  destruct (run_process env _ None (fs w) (remote w)) as [msg|res f' rem'];
    [tidy; reflexivity|].
  destruct (Z.eqb (returncode res) 0); tidy; reflexivity.
Qed.

Lemma job_setup_run p d w :
  job_setup env p d w =
  match relpath (getcwd env) p (SOURCE_ROOT env) with
  | None => (Exc (ValueError "no path specified"), w)
  | Some rel_path =>
      match makedirs_fault env (resolve env d) (fs w) with
      | Some msg => (Exc (OSError msg), record [EMakedirs (resolve env d)] w)
      | None =>
          match mkdir_chain (ancestors_and_self (resolve env d)) (fs w) with
          | Some f' =>
              (Val (gcs_dest_of rel_path),
               mkWorld f' (remote w) (trace w ++ [EMakedirs (resolve env d)])
                 (drawn w))
          | None =>
              (Exc (OSError "File exists"),
               record [EMakedirs (resolve env d)] w)
          end
      end
  end.
Proof.
  unfold job_setup. destruct (relpath _ _ _); [|reflexivity].
  cbv [os_makedirs bind get_fs emit record raise set_fs ret].
  cbn [fs remote trace drawn].
  destruct (makedirs_fault env (resolve env d) (fs w)); [reflexivity|].
  destruct (mkdir_chain _ (fs w)); reflexivity.
Qed.


Lemma job_cleanup_shape d w r w' :
  job_cleanup env d w = (r, w') ->
  (trace w' = trace w \/ trace w' = trace w ++ [ERmtree (resolve env d)])
  /\ drawn w' = drawn w
  /\ ((forall d' f, rmtree_fault env d' f = None) -> r = Val tt).
Proof.
  rewrite job_cleanup_run.
  destruct (fs_exists (resolve env d) (fs w)).
  - destruct (rmtree_fault env (resolve env d) (fs w)) eqn:F;
      intros H; inversion H; subst; cbn [trace drawn]; repeat split; auto.
    intros Hn. rewrite Hn in F. discriminate.
  - intros H; inversion H; subst. auto.
Qed.

(** The [finally] block adds at most the removal of the workspace, and
    changes the outcome only when that removal fails. *)
Lemma try_finally_cleanup {A} (body : M A) d w r w' :
  try_finally body (job_cleanup env d) w = (r, w') ->
  exists rg wg,
    body w = (rg, wg)
    /\ (trace w' = trace wg \/ trace w' = trace wg ++ [ERmtree (resolve env d)])
    /\ drawn w' = drawn wg
    /\ (r = rg \/ exists m, r = Exc (OSError m))
    /\ ((forall d' f, rmtree_fault env d' f = None) -> r = rg).
Proof.
  unfold try_finally. destruct (body w) as [rg wg].
  destruct (job_cleanup env d wg) as [rc wc] eqn:C.
  pose proof (job_cleanup_shape _ _ _ _ C) as (T & D & N).
  assert (Hrc : rc = Val tt \/ exists m, rc = Exc (OSError m)).
  { revert C. rewrite job_cleanup_run.
    destruct (fs_exists _ _); [destruct (rmtree_fault _ _ _)|];
      intros H; inversion H; eauto. }
  intros H. exists rg, wg. split; [reflexivity|].
  destruct Hrc as [->|[m ->]]; inversion H; subst; repeat split; eauto.
  intros Hn. specialize (N Hn). discriminate.
Qed.

Lemma process_tar_file_unfold p w :
  process_tar_file env p w =
  try_finally
    (try_except
       (gcs_dest <- job_setup env p (workspace env w) ;;
        job_transfer env (next_id env w) p (workspace env w) gcs_dest)
       is_Exception (job_handler p))
    (job_cleanup env (workspace env w)) (drawn_one w).
Proof. reflexivity. Qed.

End RunFacts.


(** ** The workspace after the job *)

(** C2, as amended: a job ends in one of two ways.  Either
    [process_tar_file] returns - [True] after a successful job, [False]
    after an error of set-up, extraction or upload that one of its handlers
    caught - and the workspace of that job no longer exists on disk; or
    [shutil.rmtree] raised in the [finally] block, the job ends with that
    [OSError] instead of returning, and the workspace is still on disk. *)
Theorem workspace_removed_unless_rmtree_raises env tar_path w r w' :
  process_tar_file env tar_path w = (r, w') ->
  ((exists b, r = Val b)
   /\ fs_exists (resolve env (workspace env w)) (fs w') = false)
  \/ (exists msg,
        r = Exc (OSError msg)
        /\ rmtree_fault env (resolve env (workspace env w)) (fs w') = Some msg
        /\ fs_exists (resolve env (workspace env w)) (fs w') = true).
Proof.
  rewrite process_tar_file_unfold. intros H.
  apply try_finally_cases in H as [[Hr Hgone]|Hleft]; [left|now right].
  destruct (guarded_job_returns env tar_path (next_id env w)
              (workspace env w) (drawn_one w)) as (b & wg & G).
  rewrite G in Hr. split; [now exists b|assumption].
Qed.

(** ** Counting events *)

Section CountFacts.

Lemma count_app p a b : count p (a ++ b) = count p a + count p b.
Proof. unfold count. now rewrite filter_app, length_app. Qed.

Lemma count_cons p e a :
  count p (e :: a) = (if p e then 1 else 0) + count p a.
Proof. unfold count. cbn [filter]. now destruct (p e). Qed.

Lemma count_nil p : count p [] = 0.
Proof. reflexivity. Qed.

Lemma count_writes p ws :
  (forall e, is_write e = true -> p e = false) -> writes ws -> count p ws = 0.
Proof.
  intros Hp. induction 1 as [|e r He _ IH]; [reflexivity|].
  now rewrite count_cons, (Hp e He), IH.
Qed.

Lemma writes_not_in e ws : writes ws -> is_write e = false -> ~ In e ws.
Proof.
  unfold writes. rewrite Forall_forall. intros H He Hin.
  apply H in Hin. congruence.
Qed.


End CountFacts.

(** Counts over an explicit list of events with segments of writes. *)
Ltac count_simpl :=
  repeat first
    [ rewrite count_app | rewrite count_cons | rewrite count_nil
    | rewrite count_writes by (assumption || (intros [] ?; (discriminate || reflexivity))) ];
  cbn [is_run_of is_tar_open is_extractall is_error_log is_write is_makedirs
       is_run String.eqb Ascii.eqb Bool.eqb Nat.add].


(** Membership in, and absence from, an explicit list of events. *)
Ltac in_list :=
  cbn [In];
  repeat first [ left; reflexivity
               | apply in_or_app; right; cbn [In]
               | right ].

Ltac not_in_list H :=
  cbn [In] in H; rewrite ?in_app_iff in H; cbn [In] in H;
  repeat match type of H with
         | _ \/ _ => destruct H as [H|H]
         end;
  try discriminate; try (now inversion H);
  try (exfalso; revert H; apply writes_not_in; [assumption | reflexivity]);
  try contradiction.

(** The conjuncts of a statement about an explicit list of events. *)
Ltac events_done :=
  unfold tar_cmd, upload_cmd;
  repeat match goal with
         | |- _ /\ _ => split
         | |- True => exact I
         | |- count _ _ = _ => count_simpl; cbn; lia
         | |- count _ _ <= _ => count_simpl; cbn; lia
         | |- In _ _ => in_list
         | |- forall path : string, In _ _ -> _ =>
             let Hp := fresh "Hp" in intros ? Hp; not_in_list Hp
         end.


(** ** Extraction seen from the publish step *)

Section ExtractFacts.
Variable env : Env.


End ExtractFacts.

Section RunJobs.
Variable env : Env.




End RunJobs.



(** ** The job boundary *)

(** As long as the workspace can be removed, [process_tar_file] returns
    [True] or [False]: every error of set-up, extraction and upload is
    caught by the handler of the outer [try]. *)
Lemma job_returns_when_cleanup_succeeds env tar_path w :
  (forall d f, rmtree_fault env d f = None) ->
  exists b w', process_tar_file env tar_path w = (Val b, w').
Proof.
  intros Hn. rewrite process_tar_file_unfold.
  destruct (guarded_job_returns env tar_path (next_id env w)
              (workspace env w) (drawn_one w)) as (b & wg & G).
  unfold try_finally. rewrite G.
  destruct (job_cleanup env (workspace env w) wg) as [rc wc] eqn:C.
  apply job_cleanup_shape in C as (_ & _ & N). rewrite (N Hn). eauto.
Qed.

(** C5, the defect: on a host where the extracted tree cannot be removed,
    [shutil.rmtree] raises in the [finally] block, outside the reach of
    [except Exception].  [process_tar_file] ends with that exception
    instead of [True] or [False], [future.result()] raises it in the loop
    of [main], the run ends with the exception and without its summary,
    and the workspace is still on disk. *)
Lemma cleanup_error_escapes_job :
  fst (process_tar_file Fixtures.stuck_host Fixtures.archive_path
         (Fixtures.boot (Fixtures.disk Fixtures.benign)))
    = Exc (OSError "[Errno 13] Permission denied: 'b'")
  /\ fst (Uploader.main Fixtures.stuck_host
            (Fixtures.boot (Fixtures.disk Fixtures.benign)))
       = Exc (OSError "[Errno 13] Permission denied: 'b'")
  /\ count (is_print_of migration_complete)
       (trace (snd (Uploader.main Fixtures.stuck_host
                      (Fixtures.boot (Fixtures.disk Fixtures.benign))))) = 0
  /\ fs_exists "/work/temp_extraction_work/1b4e28ba"
       (fs (snd (process_tar_file Fixtures.stuck_host Fixtures.archive_path
                   (Fixtures.boot (Fixtures.disk Fixtures.benign))))) = true.
Proof. vm_compute. repeat split. Qed.

(** C2, as amended, at a job whose extraction fails on a member that leaves
    the workspace, on a host where directories can be removed. *)
Lemma workspace_removed_unless_rmtree_raises_witness :
  fs_exists "/work/temp_extraction_work/1b4e28ba"
    (fs (snd (process_tar_file Fixtures.plain_host Fixtures.archive_path
                (Fixtures.boot (Fixtures.disk Fixtures.escaping))))) = false.
Proof.
  destruct (workspace_removed_unless_rmtree_raises Fixtures.plain_host
              Fixtures.archive_path
              (Fixtures.boot (Fixtures.disk Fixtures.escaping)) _ _
              (surjective_pairing _)) as [[_ H]|(msg & _ & F & _)].
  - exact H.
  - vm_compute in F. discriminate.
Defined.

(** C2 as stated fails: on a host where the extracted tree cannot be
    removed, the workspace is still on disk after a job whose extraction
    failed with an error caught locally (the error of line 125 is logged),
    and after a job whose archive was extracted and uploaded. *)
Lemma workspace_left_counterexample :
  let failed :=
    process_tar_file Fixtures.stuck_host Fixtures.archive_path
      (Fixtures.boot (Fixtures.disk Fixtures.escaping)) in
  let succeeded :=
    process_tar_file Fixtures.stuck_host Fixtures.archive_path
      (Fixtures.boot (Fixtures.disk Fixtures.benign)) in
  count is_error_log (trace (snd failed)) = 1
  /\ In (ELog ERROR
           (msg_failed_to_extract "1b4e28ba" Fixtures.archive_path
              (PyException "Attempted Path Traversal in Tar File")))
        (trace (snd failed))
  /\ fs_exists "/work/temp_extraction_work/1b4e28ba" (fs (snd failed)) = true
  /\ In (ELog INFO "[1b4e28ba] Successfully processed part.tar")
        (trace (snd succeeded))
  /\ fs_exists "/work/temp_extraction_work/1b4e28ba" (fs (snd succeeded))
     = true.
Proof. vm_compute. repeat split; in_list. Qed.

(** ** main.py: the in-process extractor *)

Section HubFacts.
Variable env : Env.

Lemma ensure_path_is_within_run base target w :
  HubMain.ensure_path_is_within env base target w =
  if HubMain.parts_prefix (HubMain.resolved_parts env base)
       (HubMain.resolved_parts env target)
  then (Val tt, w)
  else (Exc (RuntimeError
          ("Archive member would extract outside of " ++ base ++ ": "
           ++ target)%string), w).
Proof.
  unfold HubMain.ensure_path_is_within, HubMain.relative_to, try_except.
  destruct (HubMain.parts_prefix _ _); reflexivity.
Qed.

(** The checking loop of [extract_tar_archive] stops at the first member
    outside the destination, and has touched nothing. *)
Lemma check_loop_rejects dest ms w :
  existsb (HubMain.escapes env dest) ms = true ->
  exists msg,
    HubMain.for_each ms
      (fun member =>
         HubMain.ensure_path_is_within env dest
           (join2 dest (member_name member))) w
    = (Exc (RuntimeError msg), w).
Proof.
  induction ms as [|m rest IH]; cbn [existsb HubMain.for_each]; [discriminate|].
  intros H. unfold bind. rewrite ensure_path_is_within_run.
  unfold HubMain.escapes in H at 1.
  destruct (HubMain.parts_prefix _ _); cbn [negb orb] in H; [auto|eauto].
Qed.

Lemma check_loop_accepts dest ms w :
  existsb (HubMain.escapes env dest) ms = false ->
  HubMain.for_each ms
    (fun member =>
       HubMain.ensure_path_is_within env dest
         (join2 dest (member_name member))) w
  = (Val tt, w).
Proof.
  induction ms as [|m rest IH]; cbn [existsb HubMain.for_each]; [reflexivity|].
  intros H. apply orb_false_iff in H as [Hm Hr].
  unfold bind. rewrite ensure_path_is_within_run.
  unfold HubMain.escapes in Hm. apply negb_false_iff in Hm. rewrite Hm. auto.
Qed.

(** [extract_tar_archive] of main.py checks every member before it writes
    any: an archive with a member outside the destination is refused with
    nothing extracted. *)
Lemma extract_tar_archive_rejects_traversal archive keep dest w ms :
  lookup (resolve env archive) (fs w) = Some (TarFile ms) ->
  existsb (HubMain.escapes env dest) ms = true ->
  exists msg,
    HubMain.extract_tar_archive env archive keep dest w
    = (Exc (RuntimeError msg), record [ETarOpen (resolve env archive)] w).
Proof.
  intros Hl Hbad. unfold HubMain.extract_tar_archive.
  cbv [bind os_path_exists get_fs ret fs_exists tarfile_open emit].
  rewrite Hl. cbn [negb fs record]. rewrite Hl.
  destruct (check_loop_rejects dest ms (record [ETarOpen (resolve env archive)] w) Hbad)
    as (msg & Hc).
  unfold record in *. cbn [fs remote trace drawn] in *.
  rewrite Hc. eauto.
Qed.

End HubFacts.

(** C10: when the archive is not on disk, [extract_tar_archive] prints one
    warning and returns [None]: nothing is raised and the disk is as it
    was.  Its caller [extract_tar_archives] cannot tell this from an
    extraction that worked, and prints "Finished extracting" for it. *)
Theorem missing_archive_is_silent env archive_path keep_archive extraction_path w :
  fs_exists (resolve env archive_path) (fs w) = false ->
  let warning :=
    EPrint ("Warning: expected archive not found locally: "
            ++ archive_path)%string in
  HubMain.extract_tar_archive env archive_path keep_archive extraction_path w
  = (Val tt, record [warning] w)
  /\ (forall dataset_dir rel_path,
        join2 dataset_dir rel_path = archive_path ->
        HubMain.extract_tar_archives env dataset_dir [rel_path] keep_archive
          extraction_path w
        = (Val tt,
           record [warning;
                   EPrint ("Finished extracting " ++ archive_path)%string] w)).
Proof.
  intros H warning.
  assert (E : HubMain.extract_tar_archive env archive_path keep_archive
                extraction_path w = (Val tt, record [warning] w)).
  { unfold HubMain.extract_tar_archive.
    cbv [bind os_path_exists get_fs ret]. rewrite H. reflexivity. }
  split; [exact E|].
  intros dataset_dir rel_path <-.
  unfold HubMain.extract_tar_archives. cbn [map is_nil].
  cbv [bind HubMain.run_extractions]. rewrite E.
  cbv [ret HubMain.report_extractions HubMain.for_each bind print emit].
  cbn [snd fst].
  rewrite record_record. reflexivity.
Qed.

(** ** A run that finds nothing *)



(** ** What the recursive copy is asked to copy *)

Section PublishFacts.
Variable env : Env.

Lemma endswith_char_snoc c s :
  endswith_char c (s ++ String c "")%string = true.
Proof.
  rewrite endswith_char_app. cbn. apply Ascii.eqb_refl.
Qed.

(** The destination computed by [process_tar_file] is a prefix ending in
    a slash. *)
Lemma gcs_dest_is_prefix rel_path :
  endswith_char slash (gcs_dest_of rel_path) = true.
Proof.
  unfold gcs_dest_of. cbv zeta.
  rewrite <- !append_assoc. apply endswith_char_snoc.
Qed.

End PublishFacts.

(** C7, as amended: grant the copy tool its naming rule.  In
    gcs_uploader.py the source operand is [.] and the command runs in the
    workspace, so after a copy that exits with 0 every file below the
    workspace is in the bucket at the destination prefix followed by its
    relative path, with nothing in between.  In main.py the operand is the
    extraction directory itself: for a destination prefix ending in a
    slash every file is in the bucket at the prefix, then the component
    [enclosing local_dir] (the name of the directory), then its relative
    path. *)
Theorem publish_source_operand env :
  CopyTool.recursive_copy env ->
  (forall u tar_path d rel_path w res f' rem',
      run_process env (upload_cmd (gcs_dest_of rel_path)) (Some d)
        (fs w) (remote w) = Exited res f' rem' ->
      returncode res = 0%Z ->
      let after := job_publish env u tar_path d (gcs_dest_of rel_path) w in
      fst after = Val true
      /\ forall rel,
           In rel (CopyTool.files_below
                     (CopyTool.source_dir (getcwd env) (Some d) ".") (fs w)) ->
           In (gcs_dest_of rel_path ++ rel)%string (remote (snd after)))
  /\ (forall local_dir dest w res f' rem',
        endswith_char slash dest = true ->
        run_process env (HubMain.upload_command local_dir dest) None
          (fs w) (remote w) = Exited res f' rem' ->
        returncode res = 0%Z ->
        let after :=
          HubMain.run_gcloud_storage_upload env local_dir (Some dest) w in
        fst after = Val tt
        /\ forall rel,
             In rel (CopyTool.files_below
                       (CopyTool.source_dir (getcwd env) None local_dir)
                       (fs w)) ->
             In (dest ++ CopyTool.enclosing local_dir ++ rel)%string
                (remote (snd after))).
Proof.
  intros Hcp. split.
  - intros u tar_path d rel_path w res f' rem' Hrun Hrc after.
    subst after. rewrite job_publish_run. cbv zeta. rewrite Hrun.
    cbn [fst snd remote]. split; [reflexivity|].
    intros rel Hrel.
    apply (Hcp _ _ _ _ _ _ _ _ Hrun Hrc (gcs_dest_is_prefix _)).
    unfold CopyTool.copied_objects.
    change (gcs_dest_of rel_path ++ rel)%string
      with ((fun r => gcs_dest_of rel_path ++ CopyTool.enclosing "." ++ r)%string rel).
    now apply in_map.
  - intros local_dir dest w res f' rem' Hslash Hrun Hrc after.
    subst after.
    rewrite run_gcloud_storage_upload_run
      by (intros ->; discriminate).
    cbv zeta. rewrite Hrun, Hrc. cbn [Z.eqb fst snd remote].
    split; [reflexivity|]. intros rel Hrel.
    apply (Hcp _ _ _ _ _ _ _ _ Hrun Hrc Hslash).
    unfold CopyTool.copied_objects.
    now apply (in_map (fun r => (dest ++ CopyTool.enclosing local_dir ++ r)%string)).
Qed.

(** ** The worker pool *)

Section PoolFacts.
Variable env : Env.
Variable max_workers : nat.

(** The two halves a worker runs are [process_tar_file], cut after the
    creation of the workspace. *)
Lemma process_tar_file_halves p w :
  process_tar_file env p w =
  match Pool.job_begin env p w with
  | (inl j, w1) => Pool.job_end env j w1
  | (inr r, w1) => (r, w1)
  end.
Proof.
  rewrite process_tar_file_unfold. unfold Pool.job_begin, Pool.job_end.
  cbv [uuid4]. fold (drawn_one w). fold (next_id env w).
  fold (workspace env w).
  destruct (job_setup env p (workspace env w) (drawn_one w))
    as [[g|e] w2] eqn:S; cbn [Pool.r_unique_id Pool.r_tar_path
                              Pool.r_temp_dir Pool.r_gcs_dest].
  - unfold try_finally, try_except, bind. rewrite S. reflexivity.
  - unfold try_finally, try_except, bind, raise. rewrite S.
    destruct (is_Exception e);
      [destruct (job_handler p e w2) as [r3 w3]|];
      match goal with |- context[job_cleanup env ?d ?x] =>
        destruct (job_cleanup env d x) as [[[]|e'] w4] end; reflexivity.
Qed.

(** A job that is started holds the workspace named after its token. *)
Lemma job_begin_workspace p w j w' :
  Pool.job_begin env p w = (inl j, w') ->
  Pool.r_temp_dir j = workspace env w /\ Pool.r_tar_path j = p.
Proof.
  unfold Pool.job_begin. cbv [uuid4].
  fold (drawn_one w). fold (next_id env w). fold (workspace env w).
  destruct (job_setup env p (workspace env w) (drawn_one w)) as [[g|e] w2].
  - intros H. inversion H; subst. split; reflexivity.
  - destruct (try_finally _ _ w2). discriminate.
Qed.









(** Running the jobs one after the other, as [run_jobs] does, is one of
    the schedules of the pool. *)
Lemma sequential_schedule s0 files : forall fin w futures w',
  0 < max_workers ->
  Pool.reachable env max_workers s0 (Pool.mkState files [] fin w) ->
  run_jobs env files w = (Val futures, w') ->
  Pool.reachable env max_workers s0
    (Pool.mkState [] [] (fin ++ combine files futures) w').
Proof.
  induction files as [|f rest IH]; intros fin w futures w' Hpos Hr Hrun;
    cbn [run_jobs] in Hrun.
  - cbv [ret] in Hrun. inversion Hrun; subst. cbn [combine].
    now rewrite app_nil_r.
  - destruct (process_tar_file env f w) as [r w1] eqn:P.
    destruct (run_jobs env rest w1) as [[futs|e] w2] eqn:R; [|discriminate].
    inversion Hrun; subst futures w'. cbn [combine].
    replace (fin ++ (f, r) :: combine rest futs)
      with ((fin ++ [(f, r)]) ++ combine rest futs)
      by (now rewrite <- app_assoc).
    apply (IH _ w1); [assumption| |assumption].
    rewrite process_tar_file_halves in P.
    destruct (Pool.job_begin env f w) as [[j|r0] wb] eqn:B.
    + destruct (job_begin_workspace _ _ _ _ B) as [_ Hp].
      eapply Pool.reach_step.
      * eapply Pool.reach_step; [exact Hr|].
        apply Pool.step_start; [cbn; lia | exact B].
      * rewrite <- Hp.
        apply (Pool.step_finish env max_workers rest [] j [] fin wb r w1 P).
    + inversion P; subst.
      eapply Pool.reach_step; [exact Hr|].
      apply Pool.step_start_failed; [cbn; lia | exact B].
Qed.


End PoolFacts.


(** ** The properties at concrete archives and hosts *)

Import Fixtures.

(** The copy tool of the ordinary host follows the naming rule. *)
Lemma plain_host_copies : CopyTool.recursive_copy plain_host.
Proof.
  intros src dst cwd f rem res f' rem' H _ _ o Ho.
  cbn in H. inversion H; subst. apply in_or_app. now right.
Qed.


(** C8 as stated fails: [shards/data.parquet.tar] ends in [.tar] and is
    classified as a parquet file; [backup/.tar.gz] ends in [.tar.gz] and
    [data/.parquet] in [.parquet], and neither is classified at all. *)
Lemma classify_files_suffix_counterexample :
  endswith ".tar" "shards/data.parquet.tar" = true
  /\ classify_files ["shards/data.parquet.tar"]
     = (["shards/data.parquet.tar"], [])
  /\ endswith ".tar.gz" "backup/.tar.gz" = true
  /\ classify_files ["backup/.tar.gz"] = ([], [])
  /\ endswith ".parquet" "data/.parquet" = true
  /\ classify_files ["data/.parquet"] = ([], []).
Proof. vm_compute. repeat split. Qed.

(** C8, as amended, on a small listing. *)
Lemma classify_files_by_suffix_witness :
  In "audio/shard-000.tar.gz"
    (snd (classify_files
            ["data/train.parquet"; "audio/shard-000.tar.gz"; "README.md"])).
Proof.
  refine (proj1 (proj2 (classify_files_by_suffix
            ["data/train.parquet"; "audio/shard-000.tar.gz"; "README.md"]
            "audio/shard-000.tar.gz" _)) "shard-000" ".tar.gz" _ _ _ _).
  - cbn. auto.
  - reflexivity.
  - cbn. auto.
  - reflexivity.
  - reflexivity.
Defined.



(** C1, the defect.  On a host without [tar], the fallback of
    gcs_uploader.py extracts an archive whose second member is
    [../../etc/passwd]: the job fails with the path traversal error, but the
    first member has been written by then, because [safe_members] is
    consumed member by member.  An archive whose only member is
    [../1b4e28bax/evil.txt] passes [is_within_directory], which compares
    characters and not components: the job succeeds and the file stays on
    disk next to the workspace.  [ensure_path_is_within] of main.py refuses
    that member, and [extract_tar_archive] of main.py writes nothing of the
    first archive. *)
Lemma fallback_extracts_before_check :
  let after := process_tar_file plain_host archive_path (boot (disk escaping)) in
  let outside := process_tar_file plain_host archive_path (boot (disk sibling)) in
  let workspace := "/work/temp_extraction_work/1b4e28ba" in
  fst after = Val false
  /\ In (EWrite "/work/temp_extraction_work/1b4e28ba/a.txt") (trace (snd after))
  /\ count is_write (trace (snd after)) = 1
  /\ count is_error_log (trace (snd after)) = 1
  /\ fst outside = Val true
  /\ is_within_directory plain_host workspace
       (join2 workspace "../1b4e28bax/evil.txt") = true
  /\ fs_exists "/work/temp_extraction_work/1b4e28bax/evil.txt"
       (fs (snd outside)) = true
  /\ HubMain.escapes plain_host workspace (reg "../1b4e28bax/evil.txt") = true
  /\ count is_write
       (trace (snd (HubMain.extract_tar_archive plain_host archive_path true
                      workspace (boot (disk escaping))))) = 0.
Proof. vm_compute. repeat split; in_list. Qed.





(** C10 on an empty disk. *)
Lemma missing_archive_is_silent_witness :
  fst (HubMain.extract_tar_archive plain_host archive_path false
         "/home/u/Dataset/Svarah" (boot [])) = Val tt.
Proof.
  rewrite (proj1 (missing_archive_is_silent plain_host archive_path false
                    "/home/u/Dataset/Svarah" (boot []) eq_refl)).
  reflexivity.
Defined.

(** C7 as stated fails for main.py: it hands the extraction directory
    itself to the copy tool, and the files arrive below one more component,
    [Svarah/]. *)
Lemma publish_directory_counterexample :
  let after :=
    HubMain.run_gcloud_storage_upload plain_host dataset_dir
      (Some bucket_prefix) (boot extracted) in
  fst after = Val tt
  /\ remote (snd after)
     = ["gs://vaani-tts-master/data/Svarah/a.txt";
        "gs://vaani-tts-master/data/Svarah/b/c.txt"]
  /\ ~ In "gs://vaani-tts-master/data/a.txt" (remote (snd after)).
Proof.
  vm_compute. repeat split.
  intros [H|[H|[]]]; discriminate.
Qed.

(** C7, as amended, for the workspace of a job. *)
Lemma publish_source_operand_witness :
  In "gs://vaani-tts-master/Emilia-Dataset/Emilia-Dataset/Emilia-ZH-000/000/b/c.txt"
     (remote (snd (job_publish plain_host "1b4e28ba" archive_path
                     "/work/temp_extraction_work/1b4e28ba"
                     (gcs_dest_of archive_rel_path) (boot staged)))).
Proof.
  refine (proj2 (proj1 (publish_source_operand plain_host plain_host_copies)
            "1b4e28ba" archive_path "/work/temp_extraction_work/1b4e28ba"
            archive_rel_path (boot staged) _ _ _ eq_refl eq_refl) "b/c.txt" _).
  vm_compute. in_list.
Defined.

(* ===================================================================== *)
(** * Further properties of the two scripts *)
(* ===================================================================== *)

Import Observe MoreFixtures.

(** ** The extraction pool of main.py *)

(** X1: the pool of [extract_tar_archives] is given at least one worker and
    at most five, and never more workers than archives, whatever
    [os.cpu_count()] answers (a number, 0 or [None]). *)
Theorem extraction_pool_size (cpu_count : option nat) (tar_paths : list string) :
  tar_paths <> [] ->
  1 <= Sizing.max_workers cpu_count tar_paths
  /\ Sizing.max_workers cpu_count tar_paths <= 5
  /\ Sizing.max_workers cpu_count tar_paths <= length tar_paths.
Proof.
  intros Hne. unfold Sizing.max_workers, Sizing.cpu_based, Sizing.or_default.
  destruct tar_paths as [|p r]; [congruence|]. cbn [length].
  destruct cpu_count as [[|n]|]; lia.
Qed.

Lemma extraction_pool_size_witness :
  1 <= Sizing.max_workers (Some 0) ["a.tar"; "b.tar"]
  /\ Sizing.max_workers (Some 0) ["a.tar"; "b.tar"] <= 5
  /\ Sizing.max_workers (Some 0) ["a.tar"; "b.tar"] <= 2.
Proof.
  apply (extraction_pool_size (Some 0) ["a.tar"; "b.tar"]). discriminate.
Defined.

(** ** [extract_with_system_tar] *)

(** X2: [extract_with_system_tar] never raises.  It runs [tar] once and
    returns [True] exactly when the command could be started and exited with
    status 0; otherwise it returns [False] after logging one warning. *)
Theorem system_tar_never_raises env tar_path dest_dir w :
  exists b w' evs,
    extract_with_system_tar env tar_path dest_dir w = (Val b, w')
    /\ (b = true <->
        exists res f' rem',
          run_process env (tar_cmd tar_path dest_dir) None (fs w) (remote w)
            = Exited res f' rem'
          /\ returncode res = 0%Z)
    /\ trace w' = trace w ++ evs
    /\ evs <> []
    /\ hd (EPrint "") evs = ERun ["tar"; "-xf"; tar_path; "-C"; dest_dir] None
    /\ count is_run evs = 1
    /\ count is_warning_log evs = (if b then 0 else 1)
    /\ drawn w' = drawn w.
Proof.
  rewrite extract_with_system_tar_run.
  destruct (run_process env (tar_cmd tar_path dest_dir) None (fs w) (remote w))
    as [msg|res f' rem'] eqn:R.
  - eexists _, _, _. split; [reflexivity|]. split.
    + split; [discriminate|]. intros (res & f' & rem' & H & _). discriminate.
    + unfold record. cbn [trace drawn]. repeat split; discriminate.
  - destruct (Z.eqb (returncode res) 0) eqn:Z0.
    + eexists _, _, _. split; [reflexivity|]. split.
      * split; [|reflexivity]. intros _. exists res, f', rem'.
        split; [reflexivity|]. now apply Z.eqb_eq.
      * cbn [trace drawn]. repeat split; discriminate.
    + eexists _, _, _. split; [reflexivity|]. split.
      * split; [discriminate|]. intros (res0 & f0 & rem0 & H & H0).
        inversion H; subst. apply Z.eqb_neq in Z0. contradiction.
      * cbn [trace drawn]. repeat split; discriminate.
Qed.

(** ** The member check of the fallback *)

Lemma commonprefix_is_prefix a : forall b,
  String.eqb (commonprefix a b) a = String.prefix a b.
Proof.
  induction a as [|x a' IH]; intros [|y b']; cbn; try reflexivity.
  destruct (ascii_dec x y) as [->|N].
  - rewrite Ascii.eqb_refl. cbn. rewrite Ascii.eqb_refl. apply IH.
  - apply Ascii.eqb_neq in N. rewrite N. reflexivity.
Qed.

Lemma prefix_refl s : String.prefix s s = true.
Proof.
  induction s as [|c r IH]; cbn; [reflexivity|].
  destruct (ascii_dec c c); [exact IH | congruence].
Qed.

Lemma prefix_app s t : String.prefix s (s ++ t)%string = true.
Proof.
  induction s as [|c r IH]; cbn; [now destruct t|].
  destruct (ascii_dec c c); [exact IH | congruence].
Qed.

(** X3: [is_within_directory] holds exactly when the absolute path of the
    directory is a prefix, as a string of characters, of the absolute path
    of the target.  So it accepts the directory itself and every absolute
    target that continues the directory's path, by a slash or by anything
    else. *)
Theorem is_within_directory_is_string_prefix env directory target :
  is_within_directory env directory target
  = startswith (resolve env directory) (resolve env target)
  /\ is_within_directory env directory directory = true
  /\ (forall more,
        resolve env target = (resolve env directory ++ more)%string ->
        is_within_directory env directory target = true).
Proof.
  unfold is_within_directory, startswith, resolve.
  rewrite !commonprefix_is_prefix. split; [reflexivity|]. split.
  - apply prefix_refl.
  - intros more ->. apply prefix_app.
Qed.

(** ** The summary of [main] in gcs_uploader.py *)

Lemma count_results_acc futures : forall s f w,
  count_results futures s f w =
  match first_exception futures with
  | Some e => (Exc e, w)
  | None => (Val (s + length (filter (holds true) futures),
                  f + length (filter (holds false) futures)), w)
  end.
Proof.
  induction futures as [|[b|e] r IH]; intros s f w.
  - cbn. now rewrite !Nat.add_0_r.
  - cbn [count_results first_exception]. unfold bind, future_result, ret.
    destruct b; rewrite IH; destruct (first_exception r); cbn; try reflexivity;
      repeat f_equal; lia.
  - reflexivity.
Qed.

Lemma holds_partition futures :
  first_exception futures = None ->
  length (filter (holds true) futures) + length (filter (holds false) futures)
  = length futures.
Proof.
  induction futures as [|[b|e] r IH]; cbn; intros H; [reflexivity| |discriminate].
  specialize (IH H). destruct b; cbn; lia.
Qed.

(** X4: the loop over the futures counts every job once: when no future
    holds an exception, the two totals are the numbers of jobs that
    returned [True] and [False], and they add up to the number of jobs.
    When a future holds an exception, the loop raises the first one it
    meets and no total is produced. *)
Theorem summary_counts_every_job (futures : list (Res bool)) (w : World) :
  match first_exception futures with
  | Some e => count_results futures 0 0 w = (Exc e, w)
  | None =>
      count_results futures 0 0 w
      = (Val (length (filter (holds true) futures),
              length (filter (holds false) futures)), w)
      /\ length (filter (holds true) futures)
         + length (filter (holds false) futures) = length futures
  end.
Proof.
  rewrite count_results_acc.
  destruct (first_exception futures) eqn:E; [reflexivity|].
  split; [reflexivity | now apply holds_partition].
Qed.

(** ** [classify_files] on a listing in two parts *)

(** X5: [classify_files] keeps the order of the listing and treats each
    path on its own: the result for a listing in two parts is the result
    for the first part followed, list by list, by the result for the
    second; and every path it returns was in the listing. *)
Theorem classify_files_app (first second : list string) :
  classify_files (first ++ second)
  = (fst (classify_files first) ++ fst (classify_files second),
     snd (classify_files first) ++ snd (classify_files second))
  /\ incl (fst (classify_files (first ++ second))
           ++ snd (classify_files (first ++ second))) (first ++ second).
Proof.
  rewrite !classify_files_filter. cbn [fst snd]. rewrite !filter_app.
  split; [reflexivity|].
  intros p Hp. apply in_app_or in Hp as [Hp|Hp];
    rewrite <- filter_app in Hp; apply filter_In in Hp; apply Hp.
Qed.

(** ** main.py: [extract_tar_archive] *)

Section HubExtraction.
Variable env : Env.

(** The checking loop changes nothing, whatever its outcome. *)
Lemma check_loop_pure dest ms : forall w r w',
  HubMain.for_each ms
    (fun member =>
       HubMain.ensure_path_is_within env dest
         (join2 dest (member_name member))) w = (r, w') ->
  w' = w.
Proof.
  induction ms as [|m rest IH]; intros w r w'; cbn [HubMain.for_each].
  - intros H. now inversion H.
  - unfold bind. rewrite ensure_path_is_within_run.
    destruct (HubMain.parts_prefix _ _); [apply IH|].
    intros H. now inversion H.
Qed.

Lemma lookup_remove_path_same p f : lookup p (remove_path p f) = None.
Proof.
  induction f as [|[q n] r IH]; [reflexivity|].
  unfold remove_path in *. cbn [filter fst].
  destruct (String.eqb q p) eqn:E; cbn [negb]; [exact IH|].
  cbn [lookup]. now rewrite E.
Qed.

Lemma lookup_remove_path_other p q f :
  String.eqb p q = false -> lookup q (remove_path p f) = lookup q f.
Proof.
  intros Hpq. induction f as [|[x n] r IH]; [reflexivity|].
  unfold remove_path in *. cbn [filter fst].
  destruct (String.eqb x p) eqn:E; cbn [negb lookup].
  - apply String.eqb_eq in E. subst x. now rewrite Hpq.
  - now rewrite IH.
Qed.

(** Writing a path keeps every path that was there. *)
Lemma fs_exists_put q p n f :
  fs_exists q f = true -> fs_exists q (put p n f) = true.
Proof.
  unfold fs_exists, put. cbn [lookup].
  destruct (String.eqb p q) eqn:E; [reflexivity|].
  now rewrite lookup_remove_path_other.
Qed.

Lemma fs_exists_mkdir_chain q chain : forall f f',
  mkdir_chain chain f = Some f' ->
  fs_exists q f = true -> fs_exists q f' = true.
Proof.
  induction chain as [|d r IH]; intros f f'; cbn [mkdir_chain].
  - intros H. now inversion H.
  - destruct (lookup d f) as [[| |ms]|]; try discriminate.
    + apply IH.
    + intros H Hq. apply (IH _ _ H). now apply fs_exists_put.
Qed.

Lemma fs_exists_extract_one q d m w r w' :
  extract_one env d m w = (r, w') ->
  fs_exists q (fs w) = true -> fs_exists q (fs w') = true.
Proof.
  cbv [extract_one bind get_fs emit set_fs raise record].
  cbn [fs remote trace drawn].
  destruct (mkdir_chain _ (fs w)) as [f'|] eqn:C; intros H; inversion H; subst;
    cbn [fs]; [|auto].
  intros Hq. apply fs_exists_put. eapply fs_exists_mkdir_chain; eassumption.
Qed.

(** Extraction only adds to the disk. *)
Lemma fs_exists_extract_loop q d ms : forall w r w',
  extract_loop env d (map ret ms) w = (r, w') ->
  fs_exists q (fs w) = true -> fs_exists q (fs w') = true.
Proof.
  induction ms as [|m rest IH]; intros w r w'; cbn [map extract_loop].
  - intros H. now inversion H.
  - unfold bind at 1. unfold ret at 1. unfold bind at 1.
    destruct (extract_one env d m w) as [[[]|e] w1] eqn:E.
    + intros H Hq. apply (IH _ _ _ H).
      eapply fs_exists_extract_one; eassumption.
    + intros H Hq. inversion H; subst.
      eapply fs_exists_extract_one; eassumption.
Qed.

End HubExtraction.

(** X6: [extract_tar_archive] of main.py checks every member before it
    extracts any.  When the path check refuses one member - on a disk
    without symbolic links, a member whose path, made absolute and
    normalised, does not lie below the destination - the call raises
    [RuntimeError] and the disk is as it was: no member has been written,
    not even those that come before the refused one, and the archive has
    not been deleted, with or without [--keep-archives]. *)
Theorem hub_extraction_all_or_nothing env archive keep dest w ms :
  lookup (resolve env archive) (fs w) = Some (TarFile ms) ->
  existsb (HubMain.escapes env dest) ms = true ->
  exists msg w',
    HubMain.extract_tar_archive env archive keep dest w
    = (Exc (RuntimeError msg), w')
    /\ fs w' = fs w
    /\ remote w' = remote w
    /\ trace w' = trace w ++ [ETarOpen (resolve env archive)].
Proof.
  intros Hl Hbad.
  destruct (extract_tar_archive_rejects_traversal env archive keep dest w ms
              Hl Hbad) as (msg & E).
  exists msg, (record [ETarOpen (resolve env archive)] w).
  split; [exact E|]. repeat split.
Qed.

Lemma hub_extraction_all_or_nothing_witness :
  exists msg w',
    HubMain.extract_tar_archive plain_host archive_path false
      "/home/u/Dataset/Svarah" (boot (disk escaping))
    = (Exc (RuntimeError msg), w')
    /\ fs w' = disk escaping
    /\ remote w' = []
    /\ trace w' = [ETarOpen archive_path].
Proof.
  exact (hub_extraction_all_or_nothing plain_host archive_path false
           "/home/u/Dataset/Svarah" (boot (disk escaping)) escaping
           eq_refl eq_refl).
Defined.

(** X7: when [extract_tar_archive] returns for an archive that was on disk,
    the archive is still there exactly when [keep_archive] was set: it is
    deleted after a complete extraction and otherwise kept, and extraction
    itself removes nothing. *)
Theorem archive_kept_iff_asked env archive keep dest w w' :
  fs_exists (resolve env archive) (fs w) = true ->
  HubMain.extract_tar_archive env archive keep dest w = (Val tt, w') ->
  fs_exists (resolve env archive) (fs w') = keep.
Proof.
  intros Hex. unfold HubMain.extract_tar_archive.
  cbv [bind os_path_exists get_fs ret tarfile_open emit raise].
  rewrite Hex. cbn [negb fs record].
  pose proof Hex as Hex'. unfold fs_exists in Hex'.
  destruct (lookup (resolve env archive) (fs w)) as [[| |ms]|];
    try discriminate.
  match goal with |- context[HubMain.for_each ms ?body ?w0] =>
    destruct (HubMain.for_each ms body w0) as [[[]|e] w1] eqn:L end;
    [|discriminate].
  apply check_loop_pure in L. subst w1.
  unfold extractall. cbv [bind emit record]. cbn [fs remote trace drawn].
  match goal with |- context[extract_loop env dest ?l ?w0] =>
    destruct (extract_loop env dest l w0) as [[[]|e] w2] eqn:X end;
    [|discriminate].
  apply (fs_exists_extract_loop env (resolve env archive)) in X;
    [|exact Hex].
  destruct keep; cbn [negb].
  - intros H. inversion H; subst. exact X.
  - cbv [os_unlink bind get_fs emit set_fs raise record].
    cbn [fs remote trace drawn]. rewrite X.
    intros H. inversion H; subst. cbn [fs].
    unfold fs_exists. now rewrite lookup_remove_path_same.
Qed.

Lemma archive_kept_iff_asked_witness :
  fs_exists archive_path
    (fs (snd (HubMain.extract_tar_archive plain_host archive_path false
                "/home/u/Dataset/Svarah" (boot (disk benign))))) = false.
Proof.
  exact (archive_kept_iff_asked plain_host archive_path false
           "/home/u/Dataset/Svarah" (boot (disk benign)) _ eq_refl eq_refl).
Defined.

(** ** main.py: the upload *)

(** X8: [run_gcloud_storage_upload] runs no command when no destination is
    given ([None] or the empty string).  With a destination it runs the copy
    tool once and looks at its exit status: status 0 returns, any other
    status raises [CalledProcessError] carrying that status. *)
Theorem hub_upload_checks_exit_status env local_dir :
  (forall w,
      HubMain.run_gcloud_storage_upload env local_dir None w = (Val tt, w)
      /\ HubMain.run_gcloud_storage_upload env local_dir (Some "") w
         = (Val tt, w))
  /\ (forall dest w res f' rem',
        dest <> "" ->
        run_process env (HubMain.upload_command local_dir dest) None
          (fs w) (remote w) = Exited res f' rem' ->
        let after :=
          HubMain.run_gcloud_storage_upload env local_dir (Some dest) w in
        fst after = (if Z.eqb (returncode res) 0 then Val tt
                     else Exc (CalledProcessError (returncode res)))
        /\ exists evs,
             trace (snd after) = trace w ++ evs
             /\ count is_run evs = 1
             /\ In (ERun ["gcloud"; "storage"; "cp"; "-r"; local_dir; dest] None)
                  evs).
Proof.
  split; [intros w; split; reflexivity|].
  intros dest w res f' rem' Hd Hrun after. subst after.
  rewrite run_gcloud_storage_upload_run by assumption.
  cbv zeta. rewrite Hrun.
  destruct (Z.eqb (returncode res) 0); cbn [fst snd trace];
    (split; [reflexivity|]); eexists; (split; [reflexivity|]);
    unfold HubMain.upload_command; events_done.
Qed.

Lemma hub_upload_checks_exit_status_witness :
  fst (HubMain.run_gcloud_storage_upload denied_host dataset_dir
         (Some bucket_prefix) (boot extracted))
  = Exc (CalledProcessError 1).
Proof.
  refine (proj1 (proj2 (hub_upload_checks_exit_status denied_host dataset_dir)
            bucket_prefix (boot extracted) _ _ _ _ eq_refl)).
  discriminate.
Defined.

(** ** What the fallback writes *)

Section FallbackWrites.
Variable env : Env.

Lemma extract_one_written d m w r w' :
  extract_one env d m w = (r, w') ->
  exists evs,
    trace w' = trace w ++ evs
    /\ forall t, In (EWrite t) evs -> t = resolve env (join2 d (member_name m)).
Proof.
  cbv [extract_one bind get_fs emit set_fs raise record].
  cbn [fs remote trace drawn].
  destruct (mkdir_chain _ (fs w)); intros H; inversion H; subst;
    cbn [fs remote trace drawn].
  - eexists. split; [reflexivity|]. intros t [Ht|[]]. now inversion Ht.
  - exists []. rewrite app_nil_r. split; [reflexivity|]. intros t [].
Qed.

(** Every member the loop writes has passed [is_within_directory]. *)
Lemma extract_loop_written d ms : forall w r w',
  extract_loop env d (safe_members env d ms) w = (r, w') ->
  exists evs,
    trace w' = trace w ++ evs
    /\ forall t, In (EWrite t) evs ->
         exists m, In m ms
           /\ t = resolve env (join2 d (member_name m))
           /\ is_within_directory env d (join2 d (member_name m)) = true.
Proof.
  induction ms as [|m rest IH]; intros w r w'; cbn [safe_members map extract_loop].
  - cbv [ret]. intros H; inversion H; subst. exists [].
    rewrite app_nil_r. split; [reflexivity|]. intros t [].
  - unfold bind at 1.
    destruct (is_within_directory env d (join2 d (member_name m))) eqn:W;
      cbn [negb].
    + unfold ret at 1. unfold bind at 1.
      destruct (extract_one env d m w) as [[[]|e] w2] eqn:E2;
        apply extract_one_written in E2 as (evs1 & T1 & H1).
      * intros H. apply IH in H as (evs2 & T2 & H2).
        exists (evs1 ++ evs2). rewrite T2, T1, app_assoc.
        split; [reflexivity|]. intros t Ht. apply in_app_or in Ht as [Ht|Ht].
        -- exists m. split; [now left|]. split; [now apply H1 | exact W].
        -- destruct (H2 t Ht) as (m' & Hin & Ht' & Hw).
           exists m'. split; [now right|]. now split.
      * intros H. inversion H; subst. exists evs1. split; [assumption|].
        intros t Ht. exists m. split; [now left|].
        split; [now apply H1 | exact W].
    + unfold raise. intros H. inversion H; subst. exists [].
      rewrite app_nil_r. split; [reflexivity|]. intros t [].
Qed.

End FallbackWrites.

(** X9: whatever the archive holds, every path the fallback of
    [process_tar_file] writes is the path of a member of that archive that
    has passed [is_within_directory]: its absolute path starts, character
    by character, with the absolute path of the workspace. *)
Theorem fallback_writes_pass_the_check env unique_id tar_path temp_dir w evs t :
  trace (snd (python_fallback env unique_id tar_path temp_dir w))
    = trace w ++ evs ->
  In (EWrite t) evs ->
  startswith (resolve env temp_dir) t = true
  /\ exists ms m,
       lookup (resolve env tar_path) (fs w) = Some (TarFile ms)
       /\ In m ms
       /\ t = resolve env (join2 temp_dir (member_name m)).
Proof.
  rewrite python_fallback_run.
  unfold fallback_attempt, tarfile_open, extractall.
  cbv [bind get_fs emit record raise ret]. cbn [fs remote trace drawn].
  destruct (lookup (resolve env tar_path) (fs w)) as [[| |ms]|];
    try (cbn [is_Exception snd trace]; rewrite <- ?app_assoc; cbn [app];
         intros T Hin; apply app_inv_head in T; subst evs;
         cbn [In] in Hin; intuition discriminate).
  match goal with |- context[extract_loop env temp_dir ?l ?w0] =>
    destruct (extract_loop env temp_dir l w0) as [[[]|e] w1] eqn:E end;
    apply extract_loop_written in E as (ws & Tw & Hw);
    cbn [fs remote trace drawn] in Tw;
    [|destruct (is_Exception e)];
    cbn [snd trace]; rewrite Tw, <- ?app_assoc; cbn [app];
    intros T Hin; apply app_inv_head in T; subst evs;
    cbn [In] in Hin; rewrite ?in_app_iff in Hin; cbn [In] in Hin;
    repeat match type of Hin with
           | _ \/ _ => destruct Hin as [Hin|Hin]
           end;
    try discriminate; try contradiction;
    destruct (Hw t Hin) as (m & Hm & Ht & Hwithin);
    (split; [|exists ms, m; repeat split; assumption]);
    subst t; unfold is_within_directory in Hwithin;
    rewrite commonprefix_is_prefix in Hwithin; exact Hwithin.
Qed.

Lemma fallback_writes_pass_the_check_witness :
  startswith "/work/temp_extraction_work/1b4e28ba"
    "/work/temp_extraction_work/1b4e28ba/a.txt" = true.
Proof.
  refine (proj1 (fallback_writes_pass_the_check plain_host "1b4e28ba"
            archive_path "/work/temp_extraction_work/1b4e28ba"
            (boot (disk escaping))
            (trace (snd (python_fallback plain_host "1b4e28ba" archive_path
                           "/work/temp_extraction_work/1b4e28ba"
                           (boot (disk escaping)))))
            "/work/temp_extraction_work/1b4e28ba/a.txt" eq_refl _)).
  vm_compute. in_list.
Defined.

(** ** One job, step by step *)

Section QuietFacts.



Lemma writes_quiets ws : writes ws -> quiets ws.
Proof.
  unfold writes, quiets. apply Forall_impl. intros [] H; (discriminate || reflexivity).
Qed.

End QuietFacts.



Section JobSteps.
Variable env : Env.

(** Extraction starts with the debug line and the [tar] command; what
    follows runs no command and creates or removes no directory. *)
Lemma job_extract_events u p d w r w' :
  job_extract env u p d w = (r, w') ->
  exists xs,
    trace w' = trace w ++ ELog DEBUG (msg_extracting u p)
                          :: ERun (tar_cmd p d) None :: xs
    /\ quiets xs
    /\ drawn w' = drawn w.
Proof.
  unfold job_extract, logging. cbv [bind emit].
  rewrite extract_with_system_tar_run.
  destruct (run_process env (tar_cmd p d) None _ _) as [msg|res f' rem'];
    [|destruct (Z.eqb (returncode res) 0)]; cbn [negb].
  2: { cbv [ret]. intros H; inversion H; subst. tidy.
       exists []. repeat split. constructor. }
  all: rewrite python_fallback_run;
    match goal with |- context[fallback_attempt _ ?a1 ?a2 ?w0] =>
      destruct (fallback_attempt env a1 a2 w0) as [[b|e] w4] eqn:FA
    end;
    try rewrite (fallback_attempt_only env _ _ _ _ _ FA);
    apply fallback_attempt_shape in FA as (tail & T4 & Htail & _ & D4 & _);
    intros H; inversion H; subst;
    unfold record in *; cbn [fs remote trace drawn] in *;
    rewrite T4, <- ?app_assoc; cbn [app];
    (eexists; split; [reflexivity|]);
    (split; [|assumption]);
    destruct Htail as [->|(ws & -> & Hws)]; cbn [app];
    repeat (apply Forall_cons; [reflexivity|]);
    try apply Forall_nil;
    try (apply Forall_app; split; [now apply writes_quiets|]);
    repeat (apply Forall_cons; [reflexivity|]);
    try apply Forall_nil; try (now apply writes_quiets).
Qed.

(** Whatever its outcome, a job draws one token. *)
Lemma process_tar_file_draws_one p w :
  drawn (snd (process_tar_file env p w)) = S (drawn w).
Proof.
  destruct (process_tar_file env p w) as [r w'] eqn:P. cbn [snd].
  rewrite process_tar_file_unfold in P.
  apply try_finally_cleanup in P as (rg & wg & G & _ & Dc & _ & _).
  rewrite Dc. clear Dc.
  set (d := workspace env w) in *. set (u := next_id env w) in *.
  unfold try_except, bind in G. rewrite job_setup_run in G.
  destruct (relpath (getcwd env) p (SOURCE_ROOT env)) as [rel|];
    [destruct (makedirs_fault env _ (fs (drawn_one w)));
     [|destruct (mkdir_chain _ (fs (drawn_one w))) as [f2|]]|];
    try (cbn [is_Exception] in G;
         cbv [job_handler logging bind emit ret record] in G;
         inversion G; subst rg wg; reflexivity).
  cbn [fs remote trace drawn drawn_one] in G.
  set (w2 := mkWorld f2 _ _ _) in *.
  unfold job_transfer, bind in G.
  destruct (job_extract env u p d w2) as [[b|e] w3] eqn:JE;
    pose proof (job_extract_events _ _ _ _ _ _ JE) as (xs & _ & _ & D3);
    cbn [drawn w2] in D3.
  - destruct b; cbn [negb] in G.
    + rewrite job_publish_run in G. cbv zeta in G.
      destruct (run_process env _ (Some d) (fs w3) (remote w3));
        cbn [is_Exception] in G;
        cbv [job_handler logging bind emit ret record] in G;
        inversion G; subst rg wg; exact D3.
    + cbv [ret] in G. inversion G; subst rg wg. exact D3.
  - destruct (is_Exception e);
      cbv [job_handler logging bind emit ret record] in G;
      inversion G; subst rg wg; exact D3.
Qed.

End JobSteps.




(** ** The run of gcs_uploader.py *)

Section Draws.
Variable env : Env.

Lemma draws_ret {A} (a : A) : draws_at_most 0 (ret a).
Proof. intros w. cbn. lia. Qed.

Lemma draws_raise {A} e : draws_at_most 0 (@raise A e).
Proof. intros w. cbn. lia. Qed.

Lemma draws_emit ev : draws_at_most 0 (emit ev).
Proof. intros w. cbn. lia. Qed.

Lemma draws_get_fs : draws_at_most 0 get_fs.
Proof. intros w. cbn. lia. Qed.

Lemma draws_set_fs f : draws_at_most 0 (set_fs f).
Proof. intros w. cbn. lia. Qed.

Lemma draws_bind {A B} n m (c : M A) (k : A -> M B) :
  draws_at_most n c -> (forall a, draws_at_most m (k a)) ->
  draws_at_most (n + m) (bind c k).
Proof.
  intros Hc Hk w. unfold bind. specialize (Hc w).
  destruct (c w) as [[a|e] w1]; cbn [snd] in *.
  - specialize (Hk a w1). lia.
  - lia.
Qed.

Lemma draws_seq {A B} n (c : M A) (k : A -> M B) :
  draws_at_most 0 c -> (forall a, draws_at_most n (k a)) ->
  draws_at_most n (bind c k).
Proof. intros Hc Hk. apply (draws_bind 0 n); assumption. Qed.

Lemma draws_if {A} n (b : bool) (c1 c2 : M A) :
  draws_at_most n c1 -> draws_at_most n c2 ->
  draws_at_most n (if b then c1 else c2).
Proof. destruct b; auto. Qed.

Lemma draws_os_path_exists p : draws_at_most 0 (os_path_exists env p).
Proof. intros w. cbn. lia. Qed.

Lemma draws_os_makedirs p : draws_at_most 0 (os_makedirs env p).
Proof.
  intros w. cbv [os_makedirs bind get_fs emit raise set_fs record].
  cbn [fs remote trace drawn].
  destruct (makedirs_fault env _ (fs w)); [|destruct (mkdir_chain _ (fs w))];
    cbn; lia.
Qed.

Lemma draws_shutil_rmtree p : draws_at_most 0 (shutil_rmtree env p).
Proof.
  intros w. cbv [shutil_rmtree bind get_fs emit raise set_fs record].
  cbn [fs remote trace drawn].
  destruct (rmtree_fault env _ (fs w)); [|destruct (fs_exists _ (fs w))];
    cbn; lia.
Qed.

Lemma draws_count_results futures s f : draws_at_most 0 (count_results futures s f).
Proof.
  intros w. rewrite count_results_acc.
  destruct (first_exception futures); cbn; lia.
Qed.

(** Every submitted job is run and draws its token. *)
Lemma run_jobs_draws files : forall w,
  exists futures w',
    run_jobs env files w = (Val futures, w')
    /\ length futures = length files
    /\ drawn w' = drawn w + length files.
Proof.
  induction files as [|f rest IH]; intros w; cbn [run_jobs].
  - exists [], w. cbn. repeat split. lia.
  - pose proof (process_tar_file_draws_one env f w) as D.
    destruct (process_tar_file env f w) as [r w1]. cbn [snd] in D.
    destruct (IH w1) as (futs & w2 & -> & Hl & Hd).
    exists (r :: futs), w2. cbn [length]. repeat split; lia.
Qed.

Lemma draws_run_jobs files : draws_at_most (length files) (run_jobs env files).
Proof.
  intros w. destruct (run_jobs_draws files w) as (futs & w' & -> & _ & D).
  cbn [snd]. lia.
Qed.

Lemma length_submitted_files found :
  length (submitted_files found) = Nat.min 2 (length found).
Proof. unfold submitted_files. cbn [DRY_RUN]. apply length_firstn. Qed.

Lemma draws_main : draws_at_most 2 (Uploader.main env).
Proof.
  unfold Uploader.main, ensure_gcloud_installed, print.
  apply draws_seq; [destruct (which env "gcloud");
                    [apply draws_ret | apply draws_raise]|]. intros _.
  apply draws_seq; [apply draws_os_path_exists|]. intros present.
  apply draws_seq;
    [apply draws_if; [apply draws_os_makedirs | apply draws_ret]|]. intros _.
  apply draws_seq; [apply draws_emit|]. intros _.
  apply draws_seq; [apply draws_get_fs|]. intros f. cbv zeta.
  apply draws_seq; [apply draws_emit|]. intros _.
  apply draws_if.
  { intros w. cbn. lia. }
  apply draws_seq.
  { cbn [DRY_RUN]. apply draws_seq; [apply draws_emit|]. intros _.
    apply draws_emit. }
  intros _.
  apply draws_seq;
    [apply draws_if; [apply draws_ret | apply draws_emit]|]. intros _.
  apply draws_seq; [apply draws_emit|]. intros _.
  apply draws_seq; [apply draws_emit|]. intros _.
  apply (draws_bind 2 0).
  { intros w. pose proof (draws_run_jobs (submitted_files (glob env (SEARCH_PATTERN env) f)) w).
    rewrite length_submitted_files in H. lia. }
  intros futures.
  apply draws_seq; [apply draws_count_results|]. intros counts.
  apply draws_seq; [apply draws_os_path_exists|]. intros present'.
  apply draws_seq;
    [apply draws_if; [apply draws_shutil_rmtree | apply draws_ret]|]. intros _.
  apply draws_seq; [apply draws_emit|]. intros _.
  apply draws_seq; [apply draws_emit|]. intros _.
  apply draws_seq; [apply draws_emit|]. intros _.
  apply draws_emit.
Qed.


End Draws.

(** X11: as configured ([DRY_RUN] is on), one run of [main] starts at most
    two jobs, whatever the scan finds and whatever goes wrong: it draws at
    most two tokens.  The jobs are those of the first two files found: each
    of them is run to its end, one future per file, even when an earlier
    job failed or raised. *)
Theorem dry_run_starts_at_most_two_jobs env w :
  drawn (snd (Uploader.main env w)) <= drawn w + 2
  /\ (forall found w0,
        exists futures w1,
          run_jobs env (submitted_files found) w0 = (Val futures, w1)
          /\ submitted_files found = firstn 2 found
          /\ length futures = Nat.min 2 (length found)
          /\ drawn w1 = drawn w0 + Nat.min 2 (length found)).
Proof.
  split; [apply draws_main|].
  intros found w0.
  destruct (run_jobs_draws env (submitted_files found) w0)
    as (futs & w1 & E & Hl & Hd).
  rewrite length_submitted_files in Hl, Hd.
  exists futs, w1. repeat split; assumption.
Qed.



(** X13: [main] of gcs_uploader.py checks for [gcloud] before anything
    else: when it is not installed, the run ends with the
    [EnvironmentError] of [ensure_gcloud_installed] and has done nothing -
    no staging directory, no scan, no output. *)
Theorem missing_gcloud_stops_before_anything env w :
  which env "gcloud" = None ->
  Uploader.main env w
  = (Exc (OSError "gcloud CLI is not found. Please install Google Cloud SDK."),
     w).
Proof.
  intros H. unfold Uploader.main, ensure_gcloud_installed, bind, raise.
  now rewrite H.
Qed.

Lemma missing_gcloud_stops_before_anything_witness :
  snd (Uploader.main bare_host (boot (disk benign))) = boot (disk benign).
Proof.
  now rewrite (missing_gcloud_stops_before_anything bare_host
                 (boot (disk benign)) eq_refl).
Defined.

(** ** main.py: the loop over the extractions *)

(** X14: the loop of [extract_tar_archives] over the futures, for any
    outcomes received in any order.  It prints "Finished extracting" for
    each archive it receives before the first failure; at the first
    failure it prints "Extraction failed for" with the archive and the
    error, and raises that error again, without a word on the outcomes
    that follow.  With no failure it returns.  It never swallows a
    failure, and it changes neither the disk nor the bucket. *)
Theorem extraction_failure_is_raised (futures : list (string * Res unit))
  (w : World) :
  let after := HubMain.report_extractions futures w in
  fst after = match first_failure futures with
              | None => Val tt
              | Some (_, e) => Exc e
              end
  /\ trace (snd after)
     = trace w
       ++ map (fun p => EPrint ("Finished extracting " ++ p)%string)
              (finished_before_failure futures)
       ++ match first_failure futures with
          | Some (p, e) =>
              if is_Exception e
              then [EPrint ("Extraction failed for " ++ p ++ ": "
                            ++ exn_str e)%string]
              else []
          | None => []
          end
  /\ fs (snd after) = fs w
  /\ remote (snd after) = remote w.
Proof.
  revert w. unfold HubMain.report_extractions.
  induction futures as [|[p [[]|e]] rest IH]; intros w; cbv zeta in *;
    cbn [HubMain.for_each snd fst first_failure finished_before_failure map].
  - cbv [ret]. cbn [fst snd]. rewrite app_nil_r. repeat split.
  - destruct (IH (record [EPrint ("Finished extracting " ++ p)%string] w))
      as (H1 & H2 & H3 & H4).
    split; [exact H1|]. split; [|split; [exact H3 | exact H4]].
    etransitivity; [exact H2|].
    unfold record. cbn [trace]. now rewrite <- app_assoc.
  - destruct (is_Exception e);
      cbv [bind print emit raise record]; cbn [fst snd fs remote trace drawn];
      rewrite ?app_nil_r; repeat split.
Qed.

(** ** [classify_files]: what is skipped, and what only counts *)

Section ClassifyMore.

Lemma lstrip_no_char c s : has_char c s = false -> lstrip c s = s.
Proof.
  destruct s as [|a r]; cbn; [reflexivity|].
  intros H. apply orb_false_iff in H as [Ha _]. now rewrite Ha.
Qed.

Lemma suffixes_no_dot n : has_char dot n = false -> suffixes_of_name n = [].
Proof.
  intros H. unfold suffixes_of_name.
  rewrite (has_char_endswith _ _ H), (lstrip_no_char _ _ H).
  now rewrite (split_no_sep _ _ H).
Qed.

(** The final component of [dir/n] is [n]. *)
Lemma name_in_directory dir n :
  has_char slash n = false -> n <> "" -> n <> "." ->
  name (dir ++ String slash n) = n.
Proof.
  intros Hs He Hd. unfold name, parts.
  rewrite (split_app_field slash dir n Hs), filter_app. cbn [filter].
  apply String.eqb_neq in He, Hd. rewrite He, Hd. cbn [negb andb].
  apply last_last.
Qed.

Lemma name_plain n :
  has_char slash n = false -> n <> "" -> n <> "." -> name n = n.
Proof.
  intros Hs He Hd. unfold name, parts.
  rewrite (split_no_sep slash n Hs). cbn [filter].
  apply String.eqb_neq in He, Hd. now rewrite He, Hd.
Qed.

Lemma classify_one_by_name p q : name p = name q -> classify_one p = classify_one q.
Proof. unfold classify_one, suffixes. now intros ->. Qed.

End ClassifyMore.

(** X15: a path whose final component holds no dot - [README],
    [data/LICENSE], a directory name with dots followed by a plain file
    name - has no suffix and is classified as nothing: [classify_files]
    puts it in neither list. *)
Theorem undotted_name_is_skipped (repo_files : list string) (p : string) :
  has_char dot (name p) = false ->
  ~ In p (fst (classify_files repo_files))
  /\ ~ In p (snd (classify_files repo_files)).
Proof.
  intros H.
  assert (E : classify_one p = Skip).
  { unfold classify_one, suffixes. now rewrite (suffixes_no_dot _ H). }
  split; intros Hin.
  - apply in_parquet_files in Hin. destruct Hin as [_ Hin]. congruence.
  - apply in_tar_files in Hin. destruct Hin as [_ Hin]. congruence.
Qed.

Lemma undotted_name_is_skipped_witness :
  ~ In "shards.tar/LICENSE"
      (snd (classify_files ["shards.tar/LICENSE"; "audio/part.tar"])).
Proof.
  exact (proj2 (undotted_name_is_skipped
                  ["shards.tar/LICENSE"; "audio/part.tar"]
                  "shards.tar/LICENSE" eq_refl)).
Defined.

(** X16: only the final component of a path counts.  A file name [n]
    (no slash, not empty, not [.]) is classified in the same way at the top
    of the repository and in any directory, whatever the directory is
    called. *)
Theorem classification_ignores_directories (dir n : string) :
  has_char slash n = false -> n <> "" -> n <> "." ->
  classify_one (dir ++ "/" ++ n) = classify_one n
  /\ classify_files [(dir ++ "/" ++ n)%string]
     = (map (fun x => (dir ++ "/" ++ x)%string) (fst (classify_files [n])),
        map (fun x => (dir ++ "/" ++ x)%string) (snd (classify_files [n]))).
Proof.
  intros Hs He Hd.
  assert (E : classify_one (dir ++ "/" ++ n) = classify_one n).
  { apply classify_one_by_name.
    change (dir ++ "/" ++ n)%string with (dir ++ String slash n)%string.
    now rewrite name_in_directory, name_plain. }
  split; [exact E|].
  unfold classify_files. cbn [fold_left]. unfold classify_step.
  rewrite E. destruct (classify_one n); reflexivity.
Qed.

Lemma classification_ignores_directories_witness :
  classify_one "backup.parquet/2024/part-0.tar.gz" = classify_one "part-0.tar.gz".
Proof.
  refine (proj1 (classification_ignores_directories "backup.parquet/2024"
                   "part-0.tar.gz" eq_refl _ _)); discriminate.
Defined.

(** ** [classify_files]: every archive it returns ends in a tar suffix *)

Section SuffixShape.

Lemma length_append a b :
  String.length (a ++ b) = String.length a + String.length b.
Proof. induction a as [|c r IH]; cbn; [reflexivity | now rewrite IH]. Qed.

Lemma substring_skip s t n :
  substring (String.length s) n (s ++ t) = substring 0 n t.
Proof. induction s as [|c r IH]; cbn; [reflexivity | exact IH]. Qed.

Lemma substring_all t : substring 0 (String.length t) t = t.
Proof. induction t as [|c r IH]; cbn; [reflexivity | now rewrite IH]. Qed.

Lemma endswith_app s t : endswith t (s ++ t) = true.
Proof.
  unfold endswith. rewrite length_append.
  replace (String.length s + String.length t - String.length t)
    with (String.length s) by lia.
  rewrite substring_skip, substring_all, String.eqb_refl, andb_true_r.
  apply Nat.leb_le. lia.
Qed.

(** Splitting at a character and joining with it gives the string back. *)
Lemma concat_split c s : String.concat (String c "") (split c s) = s.
Proof.
  induction s as [|a r IH]; [reflexivity|]. cbn [split].
  destruct (Ascii.eqb a c) eqn:E.
  - apply Ascii.eqb_eq in E. subst a.
    destruct (split c r) as [|h t] eqn:S; [now apply split_nonnil in S|].
    cbn [String.concat]. rewrite <- IH. reflexivity.
  - destruct (split c r) as [|h t] eqn:S; [now apply split_nonnil in S|].
    destruct t as [|h' t'].
    + cbn in *. now rewrite IH.
    + cbn [String.concat] in *. rewrite <- IH. reflexivity.
Qed.

Lemma concat_snoc sep l x :
  l <> [] ->
  String.concat sep (l ++ [x]) = (String.concat sep l ++ sep ++ x)%string.
Proof.
  induction l as [|a r IH]; [congruence|]. intros _.
  destruct r as [|b r'].
  - reflexivity.
  - change ((a :: b :: r') ++ [x]) with (a :: ((b :: r') ++ [x])).
    change (String.concat sep (a :: (b :: r') ++ [x]))
      with (a ++ sep ++ String.concat sep ((b :: r') ++ [x]))%string.
    rewrite IH by discriminate.
    change (String.concat sep (a :: b :: r'))
      with (a ++ sep ++ String.concat sep (b :: r'))%string.
    now rewrite !append_assoc.
Qed.

Lemma lstrip_decomp c s : exists pre, s = (pre ++ lstrip c s)%string.
Proof.
  induction s as [|a r [pre IH]]; cbn.
  - now exists "".
  - destruct (Ascii.eqb a c).
    + exists (String a pre). cbn. now rewrite <- IH.
    + now exists "".
Qed.

(** A name ends with its last suffix, and with its last two. *)
Lemma name_ends_with_suffixes n pre tail :
  tail <> [] ->
  suffixes_of_name n = pre ++ tail ->
  exists stem, n = (stem ++ String.concat "" tail)%string.
Proof.
  intros Hne. unfold suffixes_of_name.
  destruct (endswith_char dot n).
  { intros H. symmetry in H. apply app_eq_nil in H as [_ H]. congruence. }
  destruct (lstrip_decomp dot n) as [dots Hn].
  pose proof (concat_split dot (lstrip dot n)) as J.
  destruct (split dot (lstrip dot n)) as [|h t] eqn:S;
    [now apply split_nonnil in S|].
  cbn [tl]. intros M.
  apply map_eq_app in M as (t0 & t1 & -> & _ & M1).
  assert (K : forall l acc, l <> [] ->
            String.concat "." (acc ++ l)
            = (String.concat "." acc ++ (if is_nil acc then "" else ".")
               ++ String.concat "."  l)%string).
  { intros l acc Hl. destruct acc as [|a0 acc'].
    - reflexivity.
    - cbn [is_nil]. revert a0. induction acc' as [|b r IH]; intros a0.
      + destruct l; [congruence|]. reflexivity.
      + change ((a0 :: b :: r) ++ l) with (a0 :: ((b :: r) ++ l)).
        change (String.concat "." (a0 :: (b :: r) ++ l))
          with (a0 ++ "." ++ String.concat "." ((b :: r) ++ l))%string.
        rewrite IH.
        change (String.concat "." (a0 :: b :: r))
          with (a0 ++ "." ++ String.concat "." (b :: r))%string.
        now rewrite !append_assoc. }
  assert (Ht1 : t1 <> []) by (intros ->; cbn in M1; congruence).
  assert (D : forall l, l <> [] ->
            String.concat "" (map (fun x => ("." ++ x)%string) l)
            = ("." ++ String.concat "." l)%string).
  { induction l as [|a r IH]; [congruence|]. intros _.
    destruct r as [|b r']; [reflexivity|].
    change (map (fun x => ("." ++ x)%string) (a :: b :: r'))
      with (("." ++ a)%string :: map (fun x => ("." ++ x)%string) (b :: r')).
    change (String.concat "" (("." ++ a)%string
                              :: map (fun x => ("." ++ x)%string) (b :: r')))
      with (("." ++ a) ++ "" ++
            String.concat "" (map (fun x => ("." ++ x)%string) (b :: r')))%string.
    rewrite IH by discriminate. reflexivity. }
  rewrite <- M1, D by assumption.
  change (h :: t0 ++ t1) with ((h :: t0) ++ t1) in J.
  rewrite K in J by assumption. cbn [is_nil] in J.
  exists (dots ++ String.concat "." (h :: t0))%string.
  rewrite Hn at 1. rewrite <- J. now rewrite !append_assoc.
Qed.

Lemma two_last {A} (l : list A) :
  2 <= length l -> exists pre x y, l = pre ++ [x; y].
Proof.
  intros H. destruct (exists_last (l := l)) as (l1 & y & ->).
  { intros ->. cbn in H. lia. }
  rewrite length_app in H. cbn in H.
  destruct (exists_last (l := l1)) as (pre & x & ->).
  { intros ->. cbn in H. lia. }
  exists pre, x, y. now rewrite <- app_assoc.
Qed.

Lemma str_in_In x xs : str_in x xs = true -> In x xs.
Proof.
  unfold str_in. intros H. apply existsb_exists in H as (y & Hy & E).
  apply String.eqb_eq in E. now subst.
Qed.

End SuffixShape.

(** X17: [classify_files] returns no false archive: every path in its
    second list was in the listing, has no [.parquet] among its suffixes,
    and has a final component that ends in one of [.tar], [.tar.gz],
    [.tgz], [.tar.bz2], [.tar.xz]. *)
Theorem classified_archive_ends_in_tar_suffix (repo_files : list string) (p : string) :
  In p (snd (classify_files repo_files)) ->
  In p repo_files
  /\ mentions_parquet p = false
  /\ exists stem ext,
       In ext TAR_SUFFIXES
       /\ name p = (stem ++ ext)%string
       /\ endswith ext (name p) = true.
Proof.
  intros H. apply in_tar_files in H as [Hin Ht].
  split; [exact Hin|]. split; [now apply classify_one_tar_no_parquet|].
  assert (G : exists pre tail,
            tail <> [] /\ suffixes p = pre ++ tail
            /\ In (String.concat "" tail) TAR_SUFFIXES).
  { unfold classify_one in Ht. cbv zeta in Ht.
    destruct (suffixes p) as [|a r] eqn:S; [discriminate|].
    rewrite <- S in *. clear a r S.
    destruct (existsb _ (suffixes p)); [discriminate|].
    assert (Hne : suffixes p <> [])
      by (intros E; rewrite E in Ht; cbn in Ht; discriminate).
    assert (L : In (last (suffixes p) "") TAR_SUFFIXES ->
                exists pre tail, tail <> [] /\ suffixes p = pre ++ tail
                  /\ In (String.concat "" tail) TAR_SUFFIXES).
    { intros HL. exists (removelast (suffixes p)), [last (suffixes p) ""].
      split; [discriminate|]. split; [now apply app_removelast_last|].
      exact HL. }
    destruct (Nat.leb 2 (length (suffixes p))) eqn:Len.
    - destruct (str_in (join "" (last_two (suffixes p))) TAR_SUFFIXES) eqn:Mg.
      + apply Nat.leb_le in Len. destruct (two_last _ Len) as (pre & x & y & E).
        exists pre, [x; y]. split; [discriminate|]. split; [exact E|].
        rewrite E, last_two_app in Mg. now apply str_in_In.
      + cbn [orb] in Ht.
        destruct (str_in (last (suffixes p) "") TAR_SUFFIXES) eqn:Ls;
          [|discriminate].
        apply L. now apply str_in_In.
    - rewrite orb_diag in Ht.
      destruct (str_in (last (suffixes p) "") TAR_SUFFIXES) eqn:Ls;
        [|discriminate].
      apply L. now apply str_in_In. }
  destruct G as (pre & tail & Hne & S & Hext).
  destruct (name_ends_with_suffixes (name p) pre tail Hne S) as [stem E].
  exists stem, (String.concat "" tail). split; [exact Hext|].
  split; [exact E|]. rewrite E. apply endswith_app.
Qed.

Lemma classified_archive_ends_in_tar_suffix_witness :
  mentions_parquet "audio/shard-000.tar.gz" = false.
Proof.
  refine (proj1 (proj2 (classified_archive_ends_in_tar_suffix
            ["data/train.parquet"; "audio/shard-000.tar.gz"; "README.md"]
            "audio/shard-000.tar.gz" _))).
  vm_compute. auto.
Defined.

(** ** Paths: what [normpath] and [abspath] make of a joined path *)

Section NormFacts.

Lemma prefix_nil s : String.prefix "" s = true.
Proof. now destruct s. Qed.

Lemma isabs_cons x s : isabs (String x s) = Ascii.eqb x slash.
Proof.
  unfold isabs, startswith.
  change (String.prefix "/" (String x s))
    with (if ascii_dec "/"%char x then String.prefix "" s else false).
  destruct (ascii_dec "/"%char x) as [<-|N].
  - now rewrite prefix_nil.
  - symmetry. apply Ascii.eqb_neq. intros E. apply N. now rewrite E.
Qed.

Lemma isabs_app a b : a <> "" -> isabs (a ++ b) = isabs a.
Proof.
  destruct a as [|x r]; [congruence|]. intros _.
  change (String x r ++ b)%string with (String x (r ++ b)%string).
  now rewrite !isabs_cons.
Qed.

(** Joining a relative path keeps the anchor. *)
Lemma isabs_join2 a n : isabs n = false -> isabs (join2 a n) = isabs a.
Proof.
  intros Hn. unfold join2. fold (isabs n). rewrite Hn.
  destruct a as [|x r]; [exact Hn|].
  cbn [String.eqb orb]. destruct (endswith_char slash (String x r));
    apply isabs_app; discriminate.
Qed.

Lemma split_app_sep c a b :
  split c (a ++ String c b) = split c a ++ split c b.
Proof.
  induction a as [|x r IH]; cbn.
  - now rewrite Ascii.eqb_refl.
  - destruct (Ascii.eqb x c).
    + now rewrite IH.
    + rewrite IH. destruct (split c r) eqn:E; [now apply split_nonnil in E|].
      reflexivity.
Qed.

Lemma endswith_char_decomp c a :
  endswith_char c a = true -> exists a', a = (a' ++ String c "")%string.
Proof.
  induction a as [|x r IH]; cbn; [discriminate|].
  destruct r as [|y r'].
  - intros H. apply Ascii.eqb_eq in H. subst. now exists "".
  - intros H. destruct (IH H) as [a' E]. exists (String x a'). cbn.
    now rewrite <- E.
Qed.

Lemma fields_no_sep c s : Forall (fun f => has_char c f = false) (split c s).
Proof.
  induction s as [|x r IH]; cbn.
  - repeat constructor.
  - destruct (Ascii.eqb x c) eqn:E.
    + constructor; [reflexivity | exact IH].
    + destruct (split c r) as [|h t]; [repeat constructor; cbn; now rewrite E|].
      inversion IH; subst. constructor; [cbn; now rewrite E | assumption].
Qed.

Lemma step_empty i acc : normpath_step i acc "" = acc.
Proof. reflexivity. Qed.

Lemma step_positive i : i <> 0 -> normpath_step i = normpath_step 1.
Proof.
  intros H. unfold normpath_step.
  destruct i; [congruence|]. reflexivity.
Qed.

(** Without [..], the loop of [normpath] appends the components it
    keeps. *)
Lemma fold_without_dotdot l : forall acc,
  forallb (fun c => negb (String.eqb c "..")) l = true ->
  fold_left (normpath_step 1) l acc = acc ++ filter kept l.
Proof.
  induction l as [|c r IH]; intros acc; cbn [forallb fold_left filter].
  - now rewrite app_nil_r.
  - intros H. apply andb_true_iff in H as [Hc Hr].
    rewrite IH by assumption. unfold normpath_step, kept.
    destruct (String.eqb c ""); [reflexivity|].
    destruct (String.eqb c "."); [reflexivity|].
    cbn [orb negb andb]. rewrite Hc. cbn [orb].
    now rewrite <- app_assoc.
Qed.

Lemma Forall_removelast {A} (P : A -> Prop) l :
  Forall P l -> Forall P (removelast l).
Proof.
  induction 1 as [|x r Hx Hr IH]; [constructor|].
  cbn. destruct r; [constructor|]. constructor; assumption.
Qed.

(** The components collected are not empty and hold no slash. *)
Lemma fold_clean i l : forall acc,
  Forall (fun f => nonempty f = true /\ has_char slash f = false) acc ->
  Forall (fun f => has_char slash f = false) l ->
  Forall (fun f => nonempty f = true /\ has_char slash f = false)
         (fold_left (normpath_step i) l acc).
Proof.
  induction l as [|c r IH]; intros acc Ha Hl; cbn [fold_left]; [exact Ha|].
  inversion Hl; subst. apply IH; [|assumption].
  unfold normpath_step.
  destruct (String.eqb c "") eqn:E; [exact Ha|].
  destruct (String.eqb c "."); [exact Ha|]. cbn [orb].
  match goal with |- context[if ?b then _ else _] => destruct b end.
  - apply Forall_app. split; [exact Ha|]. constructor; [|constructor].
    unfold nonempty. rewrite E. now split.
  - now apply Forall_removelast.
Qed.

Lemma split_join comps :
  comps <> [] -> Forall (fun f => has_char slash f = false) comps ->
  split slash (join "/" comps) = comps.
Proof.
  induction comps as [|c r IH]; [congruence|]. intros _ H.
  inversion H; subst. destruct r as [|d r'].
  - cbn. now apply split_no_sep.
  - change (join "/" (c :: d :: r'))
      with (c ++ String slash (join "/" (d :: r')))%string.
    rewrite split_app_sep, IH by (assumption || discriminate).
    now rewrite split_no_sep.
Qed.

Lemma split_slashes i s :
  split slash (slashes i ++ s) = repeat "" i ++ split slash s.
Proof.
  induction i as [|k IH]; [reflexivity|].
  cbn [slashes repeat]. cbn. now rewrite IH.
Qed.

Lemma filter_nonempty_repeat i : filter nonempty (repeat "" i) = [].
Proof. induction i; cbn; auto. Qed.

Lemma filter_nonempty_clean l :
  Forall (fun f => nonempty f = true /\ has_char slash f = false) l ->
  filter nonempty l = l.
Proof.
  induction 1 as [|x r [Hx _] _ IH]; [reflexivity|].
  cbn. now rewrite Hx, IH.
Qed.

Lemma components_clean path :
  Forall (fun f => nonempty f = true /\ has_char slash f = false)
         (components path).
Proof. apply fold_clean; [constructor | apply fields_no_sep]. Qed.

(** The parts of a normalised absolute path are the components the loop
    has collected. *)
Lemma parts_of_normpath path :
  isabs path = true ->
  filter nonempty (split slash (normpath path)) = components path.
Proof.
  intros Habs. unfold normpath.
  destruct path as [|x r]; [discriminate|]. cbn [String.eqb].
  fold (isabs (String x r)). rewrite Habs. cbv zeta.
  set (i := if _ : bool then 2 else 1).
  assert (Hi : i <> 0) by (unfold i; destruct (_ && _); discriminate).
  rewrite (step_positive i Hi). fold (components (String x r)).
  assert (Hp : String.eqb (slashes i ++ join "/" (components (String x r))) ""
               = false).
  { destruct i; [congruence|]. reflexivity. }
  rewrite Hp, split_slashes, filter_app, filter_nonempty_repeat.
  cbn [app]. pose proof (components_clean (String x r)) as C.
  destruct (components (String x r)) as [|c cs] eqn:E; [reflexivity|].
  rewrite split_join; [now apply filter_nonempty_clean|discriminate|].
  eapply Forall_impl; [|exact C]. now intros a [_ H].
Qed.

(** The loop of [normpath] over a path joined with a relative one. *)
Lemma fold_join2 a n : isabs n = false -> forall acc,
  fold_left (normpath_step 1) (split slash (join2 a n)) acc
  = fold_left (normpath_step 1) (split slash n)
      (fold_left (normpath_step 1) (split slash a) acc).
Proof.
  intros Hn acc. unfold join2. fold (isabs n). rewrite Hn.
  destruct (String.eqb a "") eqn:Ea.
  - apply String.eqb_eq in Ea. subst a. reflexivity.
  - cbn [orb]. destruct (endswith_char slash a) eqn:Es.
    + destruct (endswith_char_decomp _ _ Es) as [a' ->].
      rewrite append_assoc. cbn [append].
      rewrite !split_app_sep, !fold_left_app. reflexivity.
    + change (a ++ "/" ++ n)%string with (a ++ String slash n)%string.
      now rewrite split_app_sep, fold_left_app.
Qed.

End NormFacts.

Section ResolvedParts.
Variable env : Env.
Hypothesis cwd_absolute : isabs (getcwd env) = true.

Lemma anchored_absolute p : isabs (anchored (getcwd env) p) = true.
Proof.
  unfold anchored. destruct (isabs p) eqn:E; [exact E|].
  now rewrite isabs_join2.
Qed.

Lemma resolved_parts_components p :
  HubMain.resolved_parts env p = components (anchored (getcwd env) p).
Proof.
  unfold HubMain.resolved_parts, resolve, abspath.
  fold (anchored (getcwd env) p).
  apply parts_of_normpath, anchored_absolute.
Qed.

(** Resolving [dest/n] for a relative [n] continues the resolution of
    [dest] with the components of [n]. *)
Lemma resolved_parts_join2 dest n :
  isabs n = false ->
  HubMain.resolved_parts env (join2 dest n)
  = fold_left (normpath_step 1) (split slash n)
      (HubMain.resolved_parts env dest).
Proof.
  intros Hn. rewrite !resolved_parts_components. unfold anchored.
  rewrite (isabs_join2 dest n Hn).
  destruct (isabs dest) eqn:Ed.
  - unfold components. now apply fold_join2.
  - unfold components.
    rewrite (fold_join2 (getcwd env) (join2 dest n))
      by (now rewrite isabs_join2).
    rewrite (fold_join2 dest n Hn).
    now rewrite (fold_join2 (getcwd env) dest Ed).
Qed.

Lemma parts_prefix_app l r : HubMain.parts_prefix l (l ++ r) = true.
Proof.
  induction l as [|x l' IH]; [reflexivity|].
  cbn. now rewrite String.eqb_refl, IH.
Qed.

(** A member that stays below is never refused by main.py. *)
Lemma stays_below_accepted dest m :
  stays_below (member_name m) = true -> HubMain.escapes env dest m = false.
Proof.
  unfold stays_below, HubMain.escapes. intros H.
  apply andb_true_iff in H as [Hrel Hdd].
  apply negb_true_iff in Hrel. fold (isabs (member_name m)) in Hrel.
  rewrite (resolved_parts_join2 dest _ Hrel).
  rewrite (fold_without_dotdot _ _ Hdd), parts_prefix_app. reflexivity.
Qed.

End ResolvedParts.

Section HubAccepts.
Variable env : Env.

Lemma extract_loop_raises_oserror d ms : forall w e w',
  extract_loop env d (map ret ms) w = (Exc e, w') -> exists msg, e = OSError msg.
Proof.
  induction ms as [|m rest IH]; intros w e w'; cbn [map extract_loop].
  - discriminate.
  - unfold bind at 1. unfold ret at 1. unfold bind at 1.
    destruct (extract_one env d m w) as [[[]|e1] w1] eqn:E; [apply IH|].
    intros H. inversion H; subst. revert E.
    cbv [extract_one bind get_fs emit set_fs raise record].
    destruct (mkdir_chain _ (fs w)); intros E; inversion E. eauto.
Qed.

End HubAccepts.

(** X18: on a disk without symbolic links, [extract_tar_archive] of main.py
    raises no false alarm.  When the working directory is absolute and
    every member name is relative and has no [..] component, the path check
    refuses no member, for any destination path: the call goes on to
    [extractall] over all the members, and then to the removal of the
    archive unless it is kept; it never ends with the [RuntimeError] of
    [ensure_path_is_within]. *)
Theorem benign_archive_is_never_refused env archive keep dest w ms :
  isabs (getcwd env) = true ->
  lookup (resolve env archive) (fs w) = Some (TarFile ms) ->
  forallb (fun m => stays_below (member_name m)) ms = true ->
  existsb (HubMain.escapes env dest) ms = false
  /\ HubMain.extract_tar_archive env archive keep dest w
     = (extractall env dest (map ret ms) ;;
        if negb keep then os_unlink env archive else ret tt)
         (record [ETarOpen (resolve env archive)] w)
  /\ forall msg,
       fst (HubMain.extract_tar_archive env archive keep dest w)
       <> Exc (RuntimeError msg).
Proof.
  intros Hcwd Hl Hms.
  assert (Hok : existsb (HubMain.escapes env dest) ms = false).
  { clear Hl. induction ms as [|m rest IH]; [reflexivity|].
    cbn [forallb existsb] in *. apply andb_true_iff in Hms as [Hm Hr].
    now rewrite (stays_below_accepted env Hcwd dest m Hm), IH. }
  assert (E : HubMain.extract_tar_archive env archive keep dest w
              = (extractall env dest (map ret ms) ;;
                 if negb keep then os_unlink env archive else ret tt)
                  (record [ETarOpen (resolve env archive)] w)).
  { unfold HubMain.extract_tar_archive.
    cbv [os_path_exists tarfile_open get_fs ret emit fs_exists].
    unfold bind at 1. unfold bind at 1. rewrite Hl. cbn [negb].
    unfold bind at 1. unfold bind at 1. unfold bind at 1.
    cbn [fs record]. rewrite Hl.
    unfold bind at 1.
    rewrite (check_loop_accepts env dest ms _ Hok). reflexivity. }
  split; [exact Hok|]. split; [exact E|].
  intros msg. rewrite E. unfold extractall, bind at 1.
  unfold bind at 1. unfold emit at 1.
  match goal with |- context[extract_loop env dest ?l ?w0] =>
    destruct (extract_loop env dest l w0) as [[[]|e] w1] eqn:X end.
  - destruct keep; cbn [negb]; [discriminate|].
    cbv [os_unlink bind get_fs emit set_fs raise record].
    destruct (fs_exists _ _); discriminate.
  - apply extract_loop_raises_oserror in X as [m ->]. discriminate.
Qed.

Lemma benign_archive_is_never_refused_witness :
  existsb (HubMain.escapes plain_host "/home/u/Dataset/Svarah") benign = false.
Proof.
  exact (proj1 (benign_archive_is_never_refused plain_host archive_path false
                  "/home/u/Dataset/Svarah" (boot (disk benign)) benign
                  eq_refl eq_refl eq_refl)).
Defined.

(** ** The destination of a job *)

Section Destination.
Variable env : Env.
Hypothesis cwd_absolute : isabs (getcwd env) = true.

Lemma plain_relative c : plain_component c = true -> isabs c = false.
Proof.
  unfold plain_component. intros H.
  apply andb_true_iff in H as [H Hs]. apply andb_true_iff in H as [H _].
  apply andb_true_iff in H as [He _].
  destruct c as [|x r]; [reflexivity|]. rewrite isabs_cons.
  apply negb_true_iff in Hs. cbn in Hs. now apply orb_false_iff in Hs as [-> _].
Qed.

Lemma plain_no_slash c : plain_component c = true -> has_char slash c = false.
Proof.
  unfold plain_component. intros H.
  apply andb_true_iff in H as [_ Hs]. now apply negb_true_iff in Hs.
Qed.

Lemma plain_step c acc :
  plain_component c = true ->
  fold_left (normpath_step 1) (split slash c) acc = acc ++ [c].
Proof.
  intros H. rewrite (split_no_sep _ _ (plain_no_slash _ H)).
  rewrite fold_without_dotdot.
  - cbn [filter]. unfold kept. unfold plain_component in H.
    apply andb_true_iff in H as [H _]. apply andb_true_iff in H as [H _].
    now rewrite H.
  - cbn. unfold plain_component in H.
    apply andb_true_iff in H as [H _]. apply andb_true_iff in H as [_ H].
    now rewrite H.
Qed.

(** Below a directory, the resolved parts are those of the directory
    followed by the components of the path. *)
Lemma resolved_parts_path_join comps : forall root,
  forallb plain_component comps = true ->
  HubMain.resolved_parts env (path_join root comps)
  = HubMain.resolved_parts env root ++ comps.
Proof.
  induction comps as [|c r IH]; intros root H; cbn [forallb] in H.
  - cbn. now rewrite app_nil_r.
  - apply andb_true_iff in H as [Hc Hr].
    change (path_join root (c :: r)) with (path_join (join2 root c) r).
    rewrite IH by assumption.
    rewrite (resolved_parts_join2 env cwd_absolute root c (plain_relative c Hc)).
    rewrite plain_step by assumption. now rewrite <- app_assoc.
Qed.

Lemma commonprefix_list_app l r : commonprefix_list l (l ++ r) = l.
Proof.
  induction l as [|x l' IH]; [now destruct r|].
  cbn. now rewrite String.eqb_refl, IH.
Qed.

Lemma skipn_length_app {A} (l r : list A) : skipn (length l) (l ++ r) = r.
Proof. induction l; cbn; auto. Qed.

Lemma join_plain_shape comps :
  comps <> [] -> forallb plain_component comps = true ->
  join "/" comps <> "" /\ endswith_char slash (join "/" comps) = false
  /\ isabs (join "/" comps) = false.
Proof.
  induction comps as [|c r IH]; [congruence|]. intros _ H.
  cbn [forallb] in H. apply andb_true_iff in H as [Hc Hr].
  pose proof (plain_no_slash c Hc) as Hs.
  pose proof (plain_relative c Hc) as Hrel.
  assert (Hne : c <> "").
  { unfold plain_component in Hc. intros ->. discriminate. }
  destruct r as [|d r'].
  - cbn. repeat split; auto. now apply has_char_endswith.
  - destruct IH as (N & Eslash & _); [discriminate | assumption |].
    change (join "/" (c :: d :: r'))
      with (c ++ String slash (join "/" (d :: r')))%string.
    repeat split.
    + destruct c; [congruence | discriminate].
    + rewrite endswith_char_app, endswith_char_cons by assumption.
      exact Eslash.
    + now rewrite isabs_app.
Qed.

(** Joining plain components one by one is joining them with slashes. *)
Lemma path_join_plain rest : forall pre,
  pre <> [] -> forallb plain_component (pre ++ rest) = true ->
  path_join (join "/" pre) rest = join "/" (pre ++ rest).
Proof.
  induction rest as [|b r IH]; intros pre Hne H.
  - now rewrite app_nil_r.
  - change (path_join (join "/" pre) (b :: r))
      with (path_join (join2 (join "/" pre) b) r).
    rewrite forallb_app in H. apply andb_true_iff in H as [Hp Hbr].
    cbn [forallb] in Hbr. apply andb_true_iff in Hbr as [Hb Hr].
    destruct (join_plain_shape pre Hne Hp) as (N & Eslash & _).
    assert (J : join2 (join "/" pre) b = join "/" (pre ++ [b])).
    { unfold join2. fold (isabs b). rewrite (plain_relative b Hb).
      apply String.eqb_neq in N. rewrite N, Eslash. cbn [orb].
      unfold join. now rewrite concat_snoc. }
    rewrite J, IH.
    + now rewrite <- app_assoc.
    + now destruct pre.
    + rewrite <- app_assoc. cbn [app]. rewrite forallb_app.
      cbn [forallb]. now rewrite Hp, Hb, Hr.
Qed.

Lemma rsplit_no_slash f :
  has_char slash f = false -> rsplit_slash f = ("", f).
Proof.
  induction f as [|c r IH]; [reflexivity|]. cbn.
  intros H. apply orb_false_iff in H as [Hc Hr].
  now rewrite (IH Hr), Hc.
Qed.

Lemma rsplit_app a f :
  has_char slash f = false ->
  rsplit_slash (a ++ String slash f) = ((a ++ "/")%string, f).
Proof.
  intros Hf. induction a as [|c r IH].
  - cbn. now rewrite (rsplit_no_slash f Hf).
  - change (String c r ++ String slash f)%string
      with (String c (r ++ String slash f)).
    cbn [rsplit_slash]. rewrite IH. now destruct r.
Qed.

Lemma rstrip_app_sep c a :
  a <> "" -> endswith_char c a = false ->
  rstrip c (a ++ String c "") = a.
Proof.
  induction a as [|x r IH]; [congruence|]. intros _ H.
  destruct r as [|y r'].
  - cbn in *. rewrite Ascii.eqb_refl, H. reflexivity.
  - change (String x (String y r') ++ String c "")%string
      with (String x (String y r' ++ String c "")).
    cbn [rstrip]. rewrite IH by (discriminate || exact H). reflexivity.
Qed.

Lemma not_all_slashes x r n :
  Ascii.eqb x slash = false -> String.eqb (String x r) (slashes n) = false.
Proof.
  intros H. destruct n; [reflexivity|]. cbn [slashes String.eqb].
  now rewrite H.
Qed.

(** The folder of a relative path made of plain components. *)
Lemma dirname_join dirs file :
  forallb plain_component (dirs ++ [file]) = true ->
  dirname (join "/" (dirs ++ [file])) = join "/" dirs.
Proof.
  intros H. rewrite forallb_app in H. apply andb_true_iff in H as [Hd Hf].
  cbn [forallb] in Hf. rewrite andb_true_r in Hf.
  pose proof (plain_no_slash file Hf) as Hs.
  destruct dirs as [|d ds].
  - cbn [app]. unfold dirname. cbn [join String.concat].
    now rewrite (rsplit_no_slash file Hs).
  - unfold join. rewrite concat_snoc by discriminate.
    change ("/" ++ file)%string with (String slash file).
    unfold dirname. rewrite rsplit_app by assumption. cbn [fst].
    destruct (join_plain_shape (d :: ds)) as (N & Eslash & Hrel);
      [discriminate | assumption |]. unfold join in *.
    set (a := String.concat "/" (d :: ds)) in *.
    assert (Hne : nonempty (a ++ "/") = true) by (now destruct a).
    rewrite Hne. cbn [andb].
    destruct a as [|x r] eqn:Ea; [congruence|].
    rewrite isabs_cons in Hrel.
    change (String x r ++ "/")%string with (String x (r ++ "/")).
    rewrite not_all_slashes by assumption. cbn [negb].
    change (String x (r ++ "/")) with (String x r ++ String slash "")%string.
    now apply rstrip_app_sep.
Qed.

End Destination.

(** X19: the destination mirrors the source tree.  For an archive at
    [SOURCE_ROOT/d1/.../dk/file] (plain components; the source root and the
    working directory absolute), [os.path.relpath] gives [d1/.../dk/file]
    and the job uploads to [gs://vaani-tts-master/d1/.../dk/]: the folder of
    the archive below the source root, whatever the set-up of the job goes
    on to do.  For an archive directly in the source root the folder is
    empty and the destination is [gs://vaani-tts-master//]. *)
Theorem destination_mirrors_source env (dirs : list string) (file : string) :
  isabs (getcwd env) = true ->
  isabs (SOURCE_ROOT env) = true ->
  forallb plain_component (dirs ++ [file]) = true ->
  let tar_path := path_join (SOURCE_ROOT env) (dirs ++ [file]) in
  let dest := ("gs://vaani-tts-master/" ++ join "/" dirs ++ "/")%string in
  relpath (getcwd env) tar_path (SOURCE_ROOT env)
  = Some (join "/" (dirs ++ [file]))
  /\ gcs_dest_of (join "/" (dirs ++ [file])) = dest
  /\ forall temp_dir w g w',
       job_setup env tar_path temp_dir w = (Val g, w') -> g = dest.
Proof.
  intros Hcwd Hroot Hplain tar_path dest.
  assert (Habs : isabs tar_path = true).
  { unfold tar_path, path_join. clear tar_path dest.
    revert Hroot Hplain. generalize (SOURCE_ROOT env) as root.
    generalize (dirs ++ [file]) as comps.
    induction comps as [|c r IH]; intros root Hr H; [exact Hr|].
    cbn [forallb] in H. apply andb_true_iff in H as [Hc Hrest].
    cbn [fold_left]. apply IH; [|assumption].
    now rewrite isabs_join2 by (now apply plain_relative). }
  assert (R : relpath (getcwd env) tar_path (SOURCE_ROOT env)
              = Some (join "/" (dirs ++ [file]))).
  { unfold relpath.
    destruct (String.eqb tar_path "") eqn:Hne.
    { apply String.eqb_eq in Hne. rewrite Hne in Habs. discriminate. }
    cbv zeta.
    change (filter nonempty (split slash (abspath (getcwd env) tar_path)))
      with (HubMain.resolved_parts env tar_path).
    change (filter nonempty
              (split slash (abspath (getcwd env) (SOURCE_ROOT env))))
      with (HubMain.resolved_parts env (SOURCE_ROOT env)).
    unfold tar_path.
    rewrite (resolved_parts_path_join env Hcwd) by assumption.
    rewrite commonprefix_list_app, Nat.sub_diag, skipn_length_app.
    cbn [repeat app].
    destruct (dirs ++ [file]) as [|x r] eqn:E;
      [now destruct dirs|].
    f_equal. change x with (join "/" [x]).
    apply (path_join_plain r [x]); [discriminate | exact Hplain]. }
  assert (G : gcs_dest_of (join "/" (dirs ++ [file])) = dest).
  { unfold gcs_dest_of, dest. cbv zeta.
    now rewrite dirname_join by assumption. }
  split; [exact R|]. split; [exact G|].
  intros temp_dir w g w'. rewrite job_setup_run, R.
  destruct (makedirs_fault env _ (fs w)); [discriminate|].
  destruct (mkdir_chain _ (fs w)); [|discriminate].
  intros H. inversion H. exact G.
Qed.

Lemma destination_mirrors_source_witness :
  relpath "/work" archive_path (SOURCE_ROOT plain_host)
  = Some "Emilia-Dataset/Emilia-Dataset/Emilia-ZH-000/000/part.tar".
Proof.
  exact (proj1 (destination_mirrors_source plain_host
                  ["Emilia-Dataset"; "Emilia-Dataset"; "Emilia-ZH-000"; "000"]
                  "part.tar" eq_refl eq_refl eq_refl)).
Defined.

(** ** The member check of the fallback on members that stay below *)

Section FallbackAccepts.
Variable env : Env.
Hypothesis cwd_absolute : isabs (getcwd env) = true.

Lemma startswith_cons x s y t :
  startswith (String x s) (String y t) = Ascii.eqb x y && startswith s t.
Proof.
  unfold startswith.
  change (String.prefix (String x s) (String y t))
    with (if ascii_dec x y then String.prefix s t else false).
  destruct (ascii_dec x y) as [->|N].
  - now rewrite Ascii.eqb_refl.
  - apply Ascii.eqb_neq in N. now rewrite N.
Qed.

Lemma startswith_nil t : startswith "" t = true.
Proof. apply prefix_nil. Qed.

Lemma concat_app sep l r :
  l <> [] -> r <> [] ->
  String.concat sep (l ++ r)
  = (String.concat sep l ++ sep ++ String.concat sep r)%string.
Proof.
  intros Hl Hr. induction l as [|a l' IH]; [congruence|].
  destruct l' as [|b l''].
  - destruct r; [congruence|]. reflexivity.
  - change ((a :: b :: l'') ++ r) with (a :: ((b :: l'') ++ r)).
    change (String.concat sep (a :: (b :: l'') ++ r))
      with (a ++ sep ++ String.concat sep ((b :: l'') ++ r))%string.
    rewrite IH by discriminate.
    change (String.concat sep (a :: b :: l''))
      with (a ++ sep ++ String.concat sep (b :: l''))%string.
    now rewrite !append_assoc.
Qed.

Lemma normpath_absolute p :
  isabs p = true ->
  normpath p = (slashes (initial_slashes p) ++ join "/" (components p))%string
  /\ initial_slashes p <> 0.
Proof.
  intros Habs. unfold normpath, initial_slashes.
  destruct p as [|x r]; [discriminate|]. cbn [String.eqb].
  fold (isabs (String x r)). rewrite Habs. cbv zeta.
  set (i := if _ : bool then 2 else 1).
  assert (Hi : i <> 0) by (unfold i; destruct (_ && _); discriminate).
  rewrite (step_positive i Hi). fold (components (String x r)).
  split; [|exact Hi].
  destruct i; [congruence|]. reflexivity.
Qed.

Lemma startswith_none x s : startswith (String x s) "" = false.
Proof. reflexivity. Qed.

(** Joining a relative path to an absolute one keeps its leading
    slashes. *)
Lemma initial_slashes_join2 p n :
  isabs p = true -> isabs n = false ->
  initial_slashes (join2 p n) = initial_slashes p.
Proof.
  intros Hp Hn. unfold join2. fold (isabs n). rewrite Hn.
  assert (Hsn : startswith "/" n = false) by exact Hn.
  destruct p as [|a r]; [discriminate|]. cbn [String.eqb orb].
  rewrite isabs_cons in Hp. apply Ascii.eqb_eq in Hp. subst a.
  unfold initial_slashes, slash in *.
  destruct r as [|b [|c r3]].
  - replace (endswith_char "/" "/") with true by reflexivity.
    change ("/" ++ n)%string with (String "/" n).
    rewrite ?startswith_cons, ?startswith_nil, ?startswith_none, ?Hsn,
      ?Ascii.eqb_refl.
    reflexivity.
  - replace (endswith_char "/" (String "/" (String b "")))
      with (Ascii.eqb b "/") by reflexivity.
    destruct (Ascii.eqb b "/") eqn:Eb.
    + apply Ascii.eqb_eq in Eb. subst b.
      change ("//" ++ n)%string with (String "/" (String "/" n)).
      rewrite ?startswith_cons, ?startswith_nil, ?startswith_none, ?Hsn,
        ?Ascii.eqb_refl.
      reflexivity.
    + change (String "/" (String b "") ++ "/" ++ n)%string
        with (String "/" (String b (String "/" n))).
      rewrite Ascii.eqb_sym in Eb.
      rewrite ?startswith_cons, ?startswith_nil, ?startswith_none, ?Eb,
        ?Ascii.eqb_refl.
      reflexivity.
  - destruct (endswith_char "/" (String "/" (String b (String c r3)))).
    + change (String "/" (String b (String c r3)) ++ n)%string
        with (String "/" (String b (String c (r3 ++ n)))).
      rewrite ?startswith_cons, ?startswith_nil. reflexivity.
    + change (String "/" (String b (String c r3)) ++ "/" ++ n)%string
        with (String "/" (String b (String c (r3 ++ "/" ++ n)))).
      rewrite ?startswith_cons, ?startswith_nil. reflexivity.
Qed.

Lemma resolve_shape p :
  resolve env p
  = (slashes (initial_slashes (anchored (getcwd env) p))
     ++ join "/" (HubMain.resolved_parts env p))%string.
Proof.
  rewrite (resolved_parts_components env cwd_absolute).
  unfold resolve, abspath. fold (anchored (getcwd env) p).
  apply normpath_absolute, anchored_absolute, cwd_absolute.
Qed.

Lemma anchored_slashes_join2 d n :
  isabs n = false ->
  initial_slashes (anchored (getcwd env) (join2 d n))
  = initial_slashes (anchored (getcwd env) d).
Proof.
  intros Hn. unfold anchored. rewrite (isabs_join2 d n Hn).
  destruct (isabs d) eqn:Ed.
  - now apply initial_slashes_join2.
  - rewrite !initial_slashes_join2; auto.
    now rewrite isabs_join2.
Qed.

(** The absolute path of [d/n], for [n] that stays below, continues the
    absolute path of [d]. *)
Lemma resolve_continues d n :
  stays_below n = true ->
  exists more, resolve env (join2 d n) = (resolve env d ++ more)%string.
Proof.
  unfold stays_below. intros H. apply andb_true_iff in H as [Hrel Hdd].
  apply negb_true_iff in Hrel. fold (isabs n) in Hrel.
  rewrite (resolve_shape (join2 d n)), (resolve_shape d).
  rewrite (anchored_slashes_join2 d n Hrel).
  rewrite (resolved_parts_join2 env cwd_absolute d n Hrel).
  rewrite (fold_without_dotdot _ _ Hdd).
  set (P := HubMain.resolved_parts env d).
  set (E := filter kept (split slash n)).
  assert (N : forall s : string, (s ++ "")%string = s)
    by (induction s as [|c r IH]; cbn; congruence).
  destruct E as [|e es].
  - exists "". now rewrite app_nil_r, N.
  - destruct P as [|q qs].
    + exists (join "/" (e :: es)). cbn [app]. unfold join at 2.
      cbn [String.concat]. now rewrite N.
    + exists ("/" ++ join "/" (e :: es))%string. unfold join.
      rewrite concat_app by discriminate. now rewrite !append_assoc.
Qed.

End FallbackAccepts.

(** X20: the member check of the fallback raises no false alarm.  With an
    absolute working directory, every member whose name is relative and has
    no [..] component passes [is_within_directory] for any workspace, so
    for an archive of such members [safe_members] hands every member to
    [extractall] and never raises. *)
Theorem fallback_accepts_members_that_stay_below env temp_dir ms :
  isabs (getcwd env) = true ->
  forallb (fun m => stays_below (member_name m)) ms = true ->
  (forall m, In m ms ->
     is_within_directory env temp_dir (join2 temp_dir (member_name m)) = true)
  /\ safe_members env temp_dir ms = map ret ms.
Proof.
  intros Hcwd Hms.
  assert (A : forall m, In m ms ->
            is_within_directory env temp_dir
              (join2 temp_dir (member_name m)) = true).
  { intros m Hin. rewrite forallb_forall in Hms.
    destruct (resolve_continues env Hcwd temp_dir (member_name m) (Hms m Hin))
      as [more E].
    unfold is_within_directory. rewrite commonprefix_is_prefix.
    fold (resolve env temp_dir).
    fold (resolve env (join2 temp_dir (member_name m))).
    rewrite E. apply prefix_app. }
  split; [exact A|].
  unfold safe_members. apply map_ext_in. intros m Hin.
  now rewrite (A m Hin).
Qed.

Lemma fallback_accepts_members_that_stay_below_witness :
  safe_members plain_host "/work/temp_extraction_work/1b4e28ba" benign
  = map ret benign.
Proof.
  exact (proj2 (fallback_accepts_members_that_stay_below plain_host
                  "/work/temp_extraction_work/1b4e28ba" benign
                  eq_refl eq_refl)).
Defined.

(** ** The summary of a run *)



(** ** What a successful in-process extraction leaves on disk *)

Section OnDisk.
Variable env : Env.

Lemma fs_exists_put_same p n f : fs_exists p (put p n f) = true.
Proof. unfold fs_exists, put. cbn [lookup]. now rewrite String.eqb_refl. Qed.

Lemma extract_one_creates d m w w' :
  extract_one env d m w = (Val tt, w') ->
  fs_exists (resolve env (join2 d (member_name m))) (fs w') = true.
Proof.
  cbv [extract_one bind get_fs emit set_fs raise record].
  cbn [fs remote trace drawn].
  destruct (mkdir_chain _ (fs w)); intros H; inversion H; subst.
  cbn [fs]. apply fs_exists_put_same.
Qed.

Lemma extract_loop_creates d ms : forall w w',
  extract_loop env d (map ret ms) w = (Val tt, w') ->
  forall m, In m ms ->
    fs_exists (resolve env (join2 d (member_name m))) (fs w') = true.
Proof.
  induction ms as [|m0 rest IH]; intros w w' H m Hin; [contradiction|].
  cbn [map extract_loop] in H.
  unfold bind at 1 in H. unfold ret at 1 in H. unfold bind at 1 in H.
  destruct (extract_one env d m0 w) as [[[]|e] w1] eqn:E; [|discriminate].
  destruct Hin as [<-|Hin].
  - apply (fs_exists_extract_loop env _ d rest _ _ _ H).
    now apply extract_one_creates in E.
  - exact (IH _ _ H m Hin).
Qed.

(** A loop over [safe_members] that comes to its end has met no refused
    member: it is the loop over the members themselves. *)
Lemma safe_loop_is_plain_loop d ms : forall w w',
  extract_loop env d (safe_members env d ms) w = (Val tt, w') ->
  extract_loop env d (map ret ms) w = (Val tt, w').
Proof.
  induction ms as [|m rest IH]; intros w w' H; [exact H|].
  cbn [safe_members map extract_loop] in *.
  unfold bind at 1 in H.
  destruct (negb (is_within_directory env d (join2 d (member_name m))));
    [cbv [raise] in H; discriminate|].
  unfold ret at 1 in H. unfold bind at 1 in H.
  unfold bind at 1. unfold ret at 1. unfold bind at 1.
  destruct (extract_one env d m w) as [[[]|e] w1]; [now apply IH | exact H].
Qed.

End OnDisk.

(** X22: after an in-process extraction that came to its end, every member
    of the archive is on disk at the destination joined with its name.  In
    main.py this holds when [extract_tar_archive] returns, for every member
    but one that was at the archive's own path when the archive has been
    deleted; in gcs_uploader.py it holds when the fallback returns
    [True]. *)
Theorem extracted_members_are_on_disk env :
  (forall archive keep dest w w' ms m,
      lookup (resolve env archive) (fs w) = Some (TarFile ms) ->
      HubMain.extract_tar_archive env archive keep dest w = (Val tt, w') ->
      In m ms ->
      keep = true
      \/ resolve env (join2 dest (member_name m)) <> resolve env archive ->
      fs_exists (resolve env (join2 dest (member_name m))) (fs w') = true)
  /\ (forall tar_path temp_dir w w' ms m,
        lookup (resolve env tar_path) (fs w) = Some (TarFile ms) ->
        fallback_attempt env tar_path temp_dir w = (Val true, w') ->
        In m ms ->
        fs_exists (resolve env (join2 temp_dir (member_name m))) (fs w')
        = true).
Proof.
  split.
  - intros archive keep dest w w' ms m Hl H Hin Hside.
    unfold HubMain.extract_tar_archive in H.
    cbv [bind os_path_exists get_fs ret tarfile_open emit raise fs_exists] in H.
    rewrite Hl in H. cbn [negb fs record] in H. rewrite Hl in H.
    match type of H with context[HubMain.for_each ms ?body ?w0] =>
      destruct (HubMain.for_each ms body w0) as [[[]|e] w1] eqn:L end;
      [|discriminate].
    apply check_loop_pure in L. subst w1.
    unfold extractall in H. cbv [bind emit record] in H.
    cbn [fs remote trace drawn] in H.
    match type of H with context[extract_loop env dest ?l ?w0] =>
      destruct (extract_loop env dest l w0) as [[[]|e] w2] eqn:X end;
      [|discriminate].
    pose proof (extract_loop_creates env dest ms _ _ X m Hin) as Hm.
    destruct keep; cbn [negb] in H.
    + inversion H; subst. exact Hm.
    + cbv [os_unlink bind get_fs emit set_fs raise record] in H.
      cbn [fs remote trace drawn] in H.
      destruct (fs_exists (resolve env archive) (fs w2)); [|discriminate].
      inversion H; subst. cbn [fs].
      destruct Hside as [?|Hside]; [discriminate|].
      unfold fs_exists in *. rewrite lookup_remove_path_other; [exact Hm|].
      apply String.eqb_neq. congruence.
  - intros tar_path temp_dir w w' ms m Hl H Hin.
    unfold fallback_attempt, tarfile_open, extractall in H.
    cbv [bind get_fs emit record raise ret] in H.
    cbn [fs remote trace drawn] in H. rewrite Hl in H.
    match type of H with context[extract_loop env temp_dir ?l ?w0] =>
      destruct (extract_loop env temp_dir l w0) as [[[]|e] w1] eqn:X end;
      [|discriminate].
    inversion H; subst.
    apply safe_loop_is_plain_loop in X.
    exact (extract_loop_creates env temp_dir ms _ _ X m Hin).
Qed.

Lemma extracted_members_are_on_disk_witness :
  fs_exists "/home/u/Dataset/Svarah/b/c.txt"
    (fs (snd (HubMain.extract_tar_archive plain_host archive_path false
                "/home/u/Dataset/Svarah" (boot (disk benign))))) = true.
Proof.
  refine (proj1 (extracted_members_are_on_disk plain_host) archive_path false
            "/home/u/Dataset/Svarah" (boot (disk benign)) _ benign
            (reg "b/c.txt") eq_refl eq_refl _ _).
  - cbn. auto.
  - right. discriminate.
Defined.

(** ** A member that climbs out of the destination *)

Section Climbing.
Variable env : Env.
Hypothesis cwd_absolute : isabs (getcwd env) = true.

Lemma fold_never_dotdot l : forall acc,
  Forall (fun c => String.eqb c ".." = false) acc ->
  Forall (fun c => String.eqb c ".." = false)
         (fold_left (normpath_step 1) l acc).
Proof.
  induction l as [|c r IH]; intros acc Ha; cbn [fold_left]; [exact Ha|].
  apply IH. unfold normpath_step.
  destruct (String.eqb c ""); [exact Ha|].
  destruct (String.eqb c "."); [exact Ha|]. cbn [orb negb Nat.eqb andb].
  destruct (String.eqb c "..") eqn:E; cbn [negb orb].
  - destruct (negb (is_nil acc) && String.eqb (last acc "") "..") eqn:L.
    + apply andb_true_iff in L as [Hn Hl].
      destruct acc as [|a acc']; [discriminate|].
      assert (Hin : In (last (a :: acc') "") (a :: acc')).
      { destruct (exists_last (l := a :: acc')) as (l1 & z & ->);
          [discriminate|].
        rewrite last_last. apply in_or_app. right. now left. }
      rewrite Forall_forall in Ha. rewrite (Ha _ Hin) in Hl. discriminate.
    + now apply Forall_removelast.
  - apply Forall_app. split; [exact Ha|]. now constructor.
Qed.

Lemma resolved_parts_no_dotdot p :
  Forall (fun c => String.eqb c ".." = false) (HubMain.resolved_parts env p).
Proof.
  rewrite (resolved_parts_components env cwd_absolute).
  apply fold_never_dotdot. constructor.
Qed.

Lemma parts_prefix_same_front a b c :
  HubMain.parts_prefix (a ++ b) (a ++ c) = HubMain.parts_prefix b c.
Proof.
  induction a as [|x a' IH]; [reflexivity|].
  cbn. now rewrite String.eqb_refl, IH.
Qed.

End Climbing.

(** X23: on a disk without symbolic links, main.py refuses a member that
    climbs out of the destination by one step.  With an absolute working
    directory and a destination other than the root, a member named [../x]
    ([x] a plain component) is refused by [ensure_path_is_within] unless
    [x] is the name of the destination itself - the one case in which
    [../x] is the destination. *)
Theorem climbing_member_is_refused env dest x ty :
  isabs (getcwd env) = true ->
  plain_component x = true ->
  HubMain.resolved_parts env dest <> [] ->
  HubMain.escapes env dest (mkTarInfo ("../" ++ x) ty)
  = negb (String.eqb (last (HubMain.resolved_parts env dest) "") x).
Proof.
  intros Hcwd Hx Hne. unfold HubMain.escapes. cbn [member_name].
  assert (Hrel : isabs ("../" ++ x) = false) by reflexivity.
  rewrite (resolved_parts_join2 env Hcwd dest _ Hrel).
  change ("../" ++ x)%string with (".." ++ String slash x)%string.
  rewrite split_app_sep, fold_left_app.
  change (split slash "..") with [".."]. cbn [fold_left].
  set (P := HubMain.resolved_parts env dest) in *.
  assert (S1 : normpath_step 1 P ".." = removelast P).
  { unfold normpath_step. cbn [String.eqb Ascii.eqb Bool.eqb orb negb Nat.eqb andb].
    pose proof (resolved_parts_no_dotdot env Hcwd dest) as ND. fold P in ND.
    destruct P as [|a P']; [congruence|]. cbn [is_nil negb andb].
    assert (Hin : In (last (a :: P') "") (a :: P')).
    { destruct (exists_last (l := a :: P')) as (l1 & z & ->);
        [discriminate|].
      rewrite last_last. apply in_or_app. right. now left. }
    rewrite Forall_forall in ND. now rewrite (ND _ Hin). }
  rewrite S1.
  rewrite (plain_step x (removelast P) Hx).
  rewrite (app_removelast_last "" Hne) at 1.
  rewrite parts_prefix_same_front. cbn [HubMain.parts_prefix].
  now rewrite andb_true_r.
Qed.

Lemma climbing_member_is_refused_witness :
  HubMain.escapes plain_host "/home/u/Dataset/Svarah"
    (mkTarInfo "../evil.txt" REGTYPE) = true.
Proof.
  exact (climbing_member_is_refused plain_host "/home/u/Dataset/Svarah"
           "evil.txt" REGTYPE eq_refl eq_refl
           (fun H => ltac:(discriminate H))).
Defined.
